(** * apipokecraft: the recipe API of [server.js]

    A shallow embedding of the Express handlers of [server.js] over a model
    of the SQLite connection they share, and the properties of the recipe
    store stated in the specification.

    Layout:
    - [Js]      JSON values as the handlers see them: truthiness, [||],
                property access, [parseInt(s, 10)];
    - [Sql]     the connection: two tables, the open transaction, the
                statements the handlers issue, injected statement failures
                and the log of issued statements;
    - [Api]     the handlers, one definition per route;
    - theorems. *)

From Stdlib Require Import ZArith List String Ascii Bool Lia.
From Stdlib Require Import Permutation Sorted DecimalString DecimalPos.
Import ListNotations.

Set Warnings "-register-all".

Local Open Scope string_scope.
Local Open Scope Z_scope.

(* ===================================================================== *)
(** ** JavaScript values *)
(* ===================================================================== *)

Module Js.

(** A value produced by [JSON.parse] (the [express.json()] middleware).
    Numbers are modelled by integers: the handlers only test them for
    truthiness and hand them to the driver.  An object is the list of its
    members in source order. *)
Inductive json : Type :=
| JNull
| JBool (b : bool)
| JNum (z : Z)
| JStr (s : string)
| JArr (items : list json)
| JObj (members : list (string * json)).

(** A value that may be [undefined]: [None] is [undefined]. *)
Definition value := option json.

(** [ToBoolean]: [undefined], [null], [false], [0] and the empty string are
    falsy, everything else (arrays and objects included) is truthy. *)
Definition truthy (v : value) : bool :=
  match v with
  | None => false
  | Some JNull => false
  | Some (JBool b) => b
  | Some (JNum z) => negb (z =? 0)
  | Some (JStr s) => negb (s =? "")%string
  | Some (JArr _) => true
  | Some (JObj _) => true
  end.

(** [!v]. *)
Definition falsy (v : value) : bool := negb (truthy v).

(** [a || b] on values. *)
Definition or_else (a b : value) : value := if truthy a then a else b.

(** [Array.isArray(v)]. *)
Definition isArray (v : value) : bool :=
  match v with
  | Some (JArr _) => true
  | _ => false
  end.

(** Member lookup in a parsed object: when a key is repeated in the JSON
    text the last occurrence is the one [JSON.parse] keeps. *)
Fixpoint lookup (k : string) (members : list (string * json)) : value :=
  match members with
  | [] => None
  | (k', v) :: rest =>
      match lookup k rest with
      | Some w => Some w
      | None => if (k =? k')%string then Some v else None
      end
  end.

(** The outcome of an expression that may throw. *)
Inductive completion (A : Type) : Type :=
| Normal (a : A)
| Throw.
Arguments Normal {A} a.
Arguments Throw {A}.

(** [v.k] for one of the member names the handlers read ([name],
    [material_name], ...): a [TypeError] on [null], [undefined] on numbers,
    booleans, strings and arrays (their prototypes have no such member), the
    member on an object. *)
Definition get (v : json) (k : string) : completion value :=
  match v with
  | JNull => Throw
  | JObj members => Normal (lookup k members)
  | _ => Normal None
  end.

Definition is_digit (c : ascii) : bool :=
  let n := nat_of_ascii c in (48 <=? n)%nat && (n <=? 57)%nat.

Definition digit_value (c : ascii) : Z := Z.of_nat (nat_of_ascii c) - 48.

(** One leading white space character of [StrWhiteSpaceChar], in the UTF-8
    encoding of the string: TAB, LF, VT, FF, CR, SP, then U+00A0, U+1680,
    U+2000..U+200A, U+2028, U+2029, U+202F, U+205F, U+3000 and U+FEFF.
    Returns the rest of the string after it. *)
Definition skip_one_space (s : string) : option string :=
  match s with
  | EmptyString => None
  | String c rest =>
      let n := nat_of_ascii c in
      if ((9 <=? n) && (n <=? 13) || (n =? 32))%nat then Some rest
      else
        match rest with
        | String c2 rest2 =>
            let n2 := nat_of_ascii c2 in
            if ((n =? 194) && (n2 =? 160))%nat then Some rest2
            else
              match rest2 with
              | String c3 rest3 =>
                  let n3 := nat_of_ascii c3 in
                  if ((n =? 225) && (n2 =? 154) && (n3 =? 128)
                      || (n =? 226) && (n2 =? 128)
                         && ((128 <=? n3) && (n3 <=? 138)
                             || (n3 =? 168) || (n3 =? 169) || (n3 =? 175))
                      || (n =? 226) && (n2 =? 129) && (n3 =? 159)
                      || (n =? 227) && (n2 =? 128) && (n3 =? 128)
                      || (n =? 239) && (n2 =? 187) && (n3 =? 191))%nat
                  then Some rest3
                  else None
              | EmptyString => None
              end
        | EmptyString => None
        end
  end.

(** Leading white space removed; [fuel] bounds the number of characters
    inspected and is taken as the length of the string. *)
Fixpoint skip_spaces (fuel : nat) (s : string) : string :=
  match fuel with
  | O => s
  | S fuel' =>
      match skip_one_space s with
      | Some rest => skip_spaces fuel' rest
      | None => s
      end
  end.

(** The value of the longest prefix of decimal digits, with the number of
    digits read. *)
Fixpoint read_digits (acc : Z) (count : nat) (s : string) : Z * nat :=
  match s with
  | String c rest =>
      if is_digit c then read_digits (10 * acc + digit_value c) (S count) rest
      else (acc, count)
  | EmptyString => (acc, count)
  end.

(** [parseInt(s, 10)]: white space is skipped, one sign is read, then the
    longest run of decimal digits; [None] is [NaN], the result when no digit
    is found there.  The result is the integer the digits denote: this is
    the value of the built-in up to 2^53 in magnitude; beyond, the built-in
    returns the nearest double, which numbers in [Z] do not represent. *)
Definition parseInt (s : string) : option Z :=
  let t := skip_spaces (String.length s) s in
  let '(sign, digits) :=
    match t with
    | String "-" rest => (-1, rest)
    | String "+" rest => (1, rest)
    | _ => (1, t)
    end in
  match read_digits 0 0 digits with
  | (_, O) => None
  | (n, S _) => Some (sign * n)
  end.

(** [isNaN(parseInt(s, 10))]. *)
Definition isNaN (n : option Z) : bool :=
  match n with
  | None => true
  | Some _ => false
  end.

(** [String(n)] for an integer: its decimal text, as a client writes an id
    into the path. *)
Definition string_of_Z (z : Z) : string :=
  NilZero.string_of_int (Z.to_int z).

End Js.


(* ===================================================================== *)
(** ** The SQLite connection *)
(* ===================================================================== *)

Module Sql.

Import Js.

(** A stored value: the storage classes the handlers can produce. *)
Inductive sqlval : Type :=
| SNull
| SInt (z : Z)
| SText (s : string).

(** A JavaScript value bound to a [?] of a statement: strings as text,
    numbers as numbers, booleans as 0 and 1, [null] and [undefined] as
    NULL, an array or an object as the text [[object Object]]. *)
Definition bind_param (v : value) : sqlval :=
  match v with
  | None => SNull
  | Some JNull => SNull
  | Some (JBool b) => SInt (if b then 1 else 0)
  | Some (JNum z) => SInt z
  | Some (JStr s) => SText s
  | Some (JArr _) => SText "[object Object]"
  | Some (JObj _) => SText "[object Object]"
  end.

(** A column of a result row, as the driver hands it to the callback. *)
Definition column (v : sqlval) : json :=
  match v with
  | SNull => JNull
  | SInt z => JNum z
  | SText s => JStr s
  end.

(** A row of [recipes].  A column keeps the value that was bound: the
    declared types of the columns are in [schema.sql], which is not among
    the sources, and SQLite stores any value in any column. *)
Record recipe_row : Type := RecipeRow {
  id : Z;
  name : sqlval;
  quantity_produced : sqlval;
  npc_sell_price : sqlval
}.

(** A row of [recipe_materials]. *)
Record material_row : Type := MaterialRow {
  recipe_id : Z;
  material_name : sqlval;
  quantity : sqlval;
  material_type : sqlval;
  default_npc_price : sqlval
}.

Record tables : Type := Tables {
  recipes : list recipe_row;
  recipe_materials : list material_row
}.

(** An injected failure of a statement.
    - [Fails msg]: the statement fails and has no effect; a transaction
      that is open stays open (a constraint violation, for instance);
    - [FailsAndRollsBack msg]: the statement fails and SQLite rolls the
      open transaction back by itself (on a full disk or an I/O error, for
      instance), which leaves the connection in autocommit mode. *)
Inductive fault : Type :=
| Fails (msg : string)
| FailsAndRollsBack (msg : string).

(** [err.message]. *)
Definition message (f : fault) : string :=
  match f with
  | Fails msg => msg
  | FailsAndRollsBack msg => msg
  end.

(** The connection and its environment.
    - [current]: the tables as statements on this connection see them,
      uncommitted changes included;
    - [txn]: the tables as they were at BEGIN while a transaction is open;
    - [faults]: the injected failures, one entry for each statement that
      reports to a callback, in the order the statements are executed;
      [Some f] makes that statement fail with [err.message = message f], a
      missing entry is a success;
    - [log]: the SQL issued so far, latest last.

    BEGIN, COMMIT and ROLLBACK are issued without a callback: they take no
    entry of [faults].  A handler runs to its answer before the next
    request is taken. *)
Record state : Type := State {
  current : tables;
  txn : option tables;
  faults : list (option fault);
  log : list string
}.

(** Computations on the connection. *)
Definition M (A : Type) : Type := state -> A * state.

Definition ret {A : Type} (a : A) : M A := fun s => (a, s).

Definition bind {A B : Type} (m : M A) (k : A -> M B) : M B :=
  fun s => let (a, s') := m s in k a s'.

(** What a statement reports to its callback: [Failed msg] is a non-null
    [err], [Done a] carries the rows, [this.lastID] or [this.changes]. *)
Inductive outcome (A : Type) : Type :=
| Done (a : A)
| Failed (msg : string).
Arguments Done {A} a.
Arguments Failed {A} msg.

Definition issue (sql : string) (s : state) : state :=
  State (current s) (txn s) (faults s) (log s ++ [sql]).

(** The failure injected into the next statement, and the state once it
    has been taken. *)
Definition next_fault (s : state) : option fault * state :=
  (hd None (faults s), State (current s) (txn s) (tl (faults s)) (log s)).

Definition set_tables (t : tables) (s : state) : state :=
  State t (txn s) (faults s) (log s).

(** A statement with a callback that the handlers issue outside a
    transaction (the queries and the delete of a recipe, which run in
    autocommit mode): it is logged, takes the next injected failure and,
    when it does not fail, applies [effect] to the tables.  A failed
    statement changes nothing. *)
Definition statement {A : Type} (sql : string)
    (effect : tables -> A * tables) : M (outcome A) :=
  fun s =>
    let (f, s1) := next_fault (issue sql s) in
    match f with
    | Some f => (Failed (message f), s1)
    | None =>
        let (a, t) := effect (current s1) in
        (Done a, set_tables t s1)
    end.

(** What SQLite does to the connection when it rolls the transaction back
    by itself: the tables go back to what they were at BEGIN and no
    transaction is open any more; without an open transaction nothing
    changes. *)
Definition rolled_back (s : state) : state :=
  match txn s with
  | Some t => State t None (faults s) (log s)
  | None => s
  end.

(** A statement with a callback that the write handlers issue after BEGIN
    TRANSACTION.  It is logged and takes the next injected failure; with
    [Fails] it has no effect, with [FailsAndRollsBack] the transaction is
    rolled back as well.  Otherwise it fails without effect when the tables
    violate a constraint of the statement ([violation] gives the message),
    and else applies [effect] to the tables: inside the open transaction
    when there is one, for good when there is none any more. *)
Definition write_statement {A : Type} (sql : string)
    (violation : tables -> option string)
    (effect : tables -> A * tables) : M (outcome A) :=
  fun s =>
    let (f, s1) := next_fault (issue sql s) in
    match f with
    | Some (Fails msg) => (Failed msg, s1)
    | Some (FailsAndRollsBack msg) => (Failed msg, rolled_back s1)
    | None =>
        match violation (current s1) with
        | Some msg => (Failed msg, s1)
        | None =>
            let (a, t) := effect (current s1) in
            (Done a, set_tables t s1)
        end
    end.

(** [db.run('BEGIN TRANSACTION')], issued without a callback; inside an
    open transaction it is an error and changes nothing. *)
Definition begin_transaction : M unit :=
  fun s =>
    let s1 := issue "BEGIN TRANSACTION" s in
    match txn s1 with
    | None => (tt, State (current s1) (Some (current s1)) (faults s1) (log s1))
    | Some _ => (tt, s1)
    end.

(** [db.run('ROLLBACK')], issued without a callback: the tables go back to
    what they were at BEGIN; without an open transaction (none was opened,
    or SQLite has rolled it back already) it is an error that nobody
    hears, and changes nothing. *)
Definition rollback : M unit :=
  fun s =>
    let s1 := issue "ROLLBACK" s in
    match txn s1 with
    | Some t => (tt, State t None (faults s1) (log s1))
    | None => (tt, s1)
    end.

(** [db.run('COMMIT')], issued without a callback. *)
Definition commit : M unit :=
  fun s =>
    let s1 := issue "COMMIT" s in
    (tt, State (current s1) None (faults s1) (log s1)).

(** Modelled from the spec: [schema.sql] is not among the sources; the spec
    gives a recipe a unique, server-assigned id.  The id of a new row is
    SQLite's rowid rule, one more than the largest id in the table. *)
Definition next_id (rows : list recipe_row) : Z :=
  1 + fold_right (fun r m => Z.max (id r) m) 0 rows.

(** [INSERT INTO recipes (name, quantity_produced, npc_sell_price)
    VALUES (?, ?, ?)]; reports [this.lastID]. *)
Definition insert_recipe (n q p : value) : M (outcome Z) :=
  write_statement
    "INSERT INTO recipes (name, quantity_produced, npc_sell_price) VALUES (?, ?, ?)"
    (fun _ => None)
    (fun t =>
       let i := next_id (recipes t) in
       (i, Tables (recipes t ++ [RecipeRow i (bind_param n) (bind_param q)
                                   (bind_param p)])
                  (recipe_materials t))).

(** Modelled from the spec: [schema.sql] is not among the sources; the spec
    gives [recipe_materials] a foreign key to [recipes] that is enforced.
    The insert of a material row fails when no recipe row has its
    [recipe_id]. *)
Definition foreign_key (rid : Z) (t : tables) : option string :=
  if existsb (fun r => id r =? rid) (recipes t) then None
  else Some "SQLITE_CONSTRAINT: FOREIGN KEY constraint failed".

(** [INSERT INTO recipe_materials (recipe_id, material_name, quantity,
    material_type, default_npc_price) VALUES (?, ?, ?, ?, ?)]. *)
Definition insert_material (rid : Z) (n q ty p : value) : M (outcome unit) :=
  write_statement
    "INSERT INTO recipe_materials (recipe_id, material_name, quantity, material_type, default_npc_price) VALUES (?, ?, ?, ?, ?)"
    (foreign_key rid)
    (fun t =>
       (tt, Tables (recipes t)
                   (recipe_materials t ++
                      [MaterialRow rid (bind_param n) (bind_param q)
                         (bind_param ty) (bind_param p)]))).

(** [stmt.finalize(callback)]: no SQL is issued, the callback may receive
    an error. *)
Definition finalize : M (outcome unit) :=
  fun s =>
    let (f, s1) := next_fault s in
    match f with
    | Some f => (Failed (message f), s1)
    | None => (Done tt, s1)
    end.

(** [UPDATE recipes SET name = ?, quantity_produced = ?, npc_sell_price = ?
    WHERE id = ?]; reports [this.changes], the number of rows matched. *)
Definition update_recipe_row (n q p : value) (i : Z) : M (outcome nat) :=
  write_statement
    "UPDATE recipes SET name = ?, quantity_produced = ?, npc_sell_price = ? WHERE id = ?"
    (fun _ => None)
    (fun t =>
       (List.length (filter (fun r => id r =? i) (recipes t)),
        Tables (map (fun r =>
                       if id r =? i
                       then RecipeRow (id r) (bind_param n) (bind_param q)
                              (bind_param p)
                       else r) (recipes t))
               (recipe_materials t))).

(** [DELETE FROM recipe_materials WHERE recipe_id = ?]. *)
Definition delete_materials (i : Z) : M (outcome unit) :=
  write_statement
    "DELETE FROM recipe_materials WHERE recipe_id = ?"
    (fun _ => None)
    (fun t =>
       (tt, Tables (recipes t)
                   (filter (fun m => negb (recipe_id m =? i))
                      (recipe_materials t)))).

(** Modelled from the spec: [schema.sql] is not among the sources; the spec
    (and the comment next to the statement) give [recipe_materials] a
    cascade-delete foreign key to [recipes].  [DELETE FROM recipes WHERE
    id = ?] removes the recipe rows with that id and, by the cascade, the
    material rows that reference it; reports [this.changes], the number of
    recipe rows deleted. *)
Definition delete_recipe_row (i : Z) : M (outcome nat) :=
  statement
    "DELETE FROM recipes WHERE id = ?"
    (fun t =>
       let hit := filter (fun r => id r =? i) (recipes t) in
       (List.length hit,
        match hit with
        | [] => t
        | _ :: _ =>
            Tables (filter (fun r => negb (id r =? i)) (recipes t))
                   (filter (fun m => negb (recipe_id m =? i))
                      (recipe_materials t))
        end)).

(** The order of [ORDER BY] on stored values: NULL first, then numbers by
    value, then text by bytes.  The column [name] is taken to have the
    collation SQLite gives by default, BINARY: [schema.sql], which could
    declare another one, is not among the sources. *)
Definition sql_leb (a b : sqlval) : bool :=
  match a, b with
  | SNull, _ => true
  | SInt _, SNull => false
  | SInt x, SInt y => x <=? y
  | SInt _, SText _ => true
  | SText _, SNull => false
  | SText _, SInt _ => false
  | SText x, SText y => (x <=? y)%string
  end.

Fixpoint insert_by_name (r : recipe_row) (sorted : list recipe_row)
  : list recipe_row :=
  match sorted with
  | [] => [r]
  | r' :: rest =>
      if sql_leb (name r) (name r') then r :: sorted
      else r' :: insert_by_name r rest
  end.

(** The rows of [recipes] in ascending order of [name]. *)
Definition order_by_name (rows : list recipe_row) : list recipe_row :=
  fold_right insert_by_name [] rows.

(** [SELECT id, name, npc_sell_price FROM recipes ORDER BY name ASC] with
    [db.all]: every row, as (id, name, npc_sell_price). *)
Definition select_items : M (outcome (list (Z * sqlval * sqlval))) :=
  statement
    "SELECT id, name, npc_sell_price FROM recipes ORDER BY name ASC"
    (fun t =>
       (map (fun r => (id r, name r, npc_sell_price r))
          (order_by_name (recipes t)), t)).

(** [SELECT id, name, quantity_produced, npc_sell_price FROM recipes WHERE
    id = ?] with [db.get]: the first matching row, if any. *)
Definition select_recipe (i : Z) : M (outcome (option recipe_row)) :=
  statement
    "SELECT id, name, quantity_produced, npc_sell_price FROM recipes WHERE id = ?"
    (fun t => (find (fun r => id r =? i) (recipes t), t)).

(** [SELECT material_name, quantity, material_type, default_npc_price FROM
    recipe_materials WHERE recipe_id = ?] with [db.all]: the matching rows
    in table order. *)
Definition select_materials (i : Z) : M (outcome (list material_row)) :=
  statement
    "SELECT material_name, quantity, material_type, default_npc_price FROM recipe_materials WHERE recipe_id = ?"
    (fun t => (filter (fun m => recipe_id m =? i) (recipe_materials t), t)).

(** [a = b] in a WHERE clause: never true on NULL. *)
Definition sqlval_eqb (a b : sqlval) : bool :=
  match a, b with
  | SNull, SNull => false
  | SInt x, SInt y => x =? y
  | SText x, SText y => (x =? y)%string
  | _, _ => false
  end.

(** [SELECT npc_sell_price FROM recipes WHERE name = ?] with [db.get]. *)
Definition select_price (n : string) : M (outcome (option recipe_row)) :=
  statement
    "SELECT npc_sell_price FROM recipes WHERE name = ?"
    (fun t => (find (fun r => sqlval_eqb (name r) (SText n)) (recipes t), t)).

End Sql.

(* ===================================================================== *)
(** ** The handlers *)
(* ===================================================================== *)

Module Api.

Import Js.
Import Sql.

Notation "x <- m ;; k" := (bind m (fun x => k))
  (at level 61, m at next level, right associativity).
Notation "m ;;; k" := (bind m (fun _ => k))
  (at level 61, right associativity).

(** A row of the list answer: [{ id, name, npc_sell_price }]. *)
Record item : Type := Item {
  item_id : Z;
  item_name : json;
  item_npc_sell_price : json
}.

(** A material of the recipe answer:
    [{ material_name, quantity, material_type, default_npc_price }]. *)
Record material : Type := Material {
  mat_material_name : json;
  mat_quantity : json;
  mat_material_type : json;
  mat_default_npc_price : json
}.

(** The recipe answer, [{ ...recipeRow, materials }]:
    [{ id, name, quantity_produced, npc_sell_price, materials }]. *)
Record full_recipe : Type := FullRecipe {
  rec_id : Z;
  rec_name : json;
  rec_quantity_produced : json;
  rec_npc_sell_price : json;
  rec_materials : list material
}.

(** The JSON bodies the handlers send. *)
Inductive body : Type :=
| Error (msg : string)               (* { error: msg } *)
| Message (msg : string)             (* { message: msg } *)
| MessageId (msg : string) (i : Z)   (* { message: msg, id: i } *)
| Items (rows : list item)
| Recipe (r : full_recipe)
| Price (p : json).                  (* { npc_sell_price: p } *)

Record response : Type := Response {
  status : Z;
  payload : body
}.

(** A handler that throws: Express passes the exception to the error
    middleware registered after the routes. *)
Definition uncaught : response :=
  Response 500 (Error "Algo deu muito errado no servidor!").

Definition invalid_id : response :=
  Response 400 (Error "ID do item inválido.").

Definition item_of_row (r : Z * sqlval * sqlval) : item :=
  let '(i, n, p) := r in Item i (column n) (column p).

Definition material_of_row (m : material_row) : material :=
  Material (column (material_name m)) (column (quantity m))
    (column (material_type m)) (column (default_npc_price m)).

(** GET /api/items *)
Definition list_recipes : M response :=
  r <- select_items ;;
  match r with
  | Failed _ =>
      ret (Response 500
             (Error "Erro interno do servidor ao buscar itens (verifique schema do DB)."))
  | Done rows => ret (Response 200 (Items (map item_of_row rows)))
  end.

(** GET /api/items/:id/recipe, after the id has been parsed. *)
Definition get_recipe_by_id (itemId : Z) : M response :=
  r <- select_recipe itemId ;;
  match r with
  | Failed _ =>
      ret (Response 500 (Error "Erro interno do servidor ao buscar receita."))
  | Done None => ret (Response 404 (Error "Item não encontrado."))
  | Done (Some recipeRow) =>
      ms <- select_materials itemId ;;
      match ms with
      | Failed _ =>
          ret (Response 500
                 (Error "Erro interno do servidor ao buscar materiais da receita."))
      | Done materialRows =>
          ret (Response 200
                 (Recipe (FullRecipe (id recipeRow)
                            (column (name recipeRow))
                            (column (quantity_produced recipeRow))
                            (column (npc_sell_price recipeRow))
                            (map material_of_row materialRows))))
      end
  end.

(** GET /api/items/:id/recipe *)
Definition get_recipe (id_param : string) : M response :=
  match parseInt id_param with
  | None => ret invalid_id
  | Some itemId => get_recipe_by_id itemId
  end.

(** GET /api/items/name/:name *)
Definition get_price_by_name (itemName : string) : M response :=
  r <- select_price itemName ;;
  match r with
  | Failed _ => ret (Response 500 (Error "Erro ao buscar item."))
  | Done (Some row) => ret (Response 200 (Price (column (npc_sell_price row))))
  | Done None => ret (Response 404 (Message "Item não encontrado."))
  end.

(** The request body: the members of the object left in [req.body] by
    [express.json()] (an array body has none of the members read here and
    behaves like the empty object). *)
Definition request_body : Type := list (string * json).

(** [!mat.material_name || !mat.quantity || !mat.material_type]; reading a
    member of a [null] entry throws. *)
Definition material_invalid (mat : json) : completion bool :=
  match get mat "material_name" with
  | Throw => Throw
  | Normal n =>
      if falsy n then Normal true
      else
        match get mat "quantity" with
        | Throw => Throw
        | Normal q =>
            if falsy q then Normal true
            else
              match get mat "material_type" with
              | Throw => Throw
              | Normal ty => Normal (falsy ty)
              end
        end
  end.

(** [materials.some(mat => ...)]: the entries are visited in order until
    one satisfies the test or the test throws. *)
Fixpoint some_invalid (materials : list json) : completion bool :=
  match materials with
  | [] => Normal false
  | mat :: rest =>
      match material_invalid mat with
      | Throw => Throw
      | Normal true => Normal true
      | Normal false => some_invalid rest
      end
  end.

(** The entries of [materials] once [Array.isArray] has accepted it. *)
Definition elements (materials : value) : list json :=
  match materials with
  | Some (JArr items) => items
  | _ => []
  end.

(** A member of a material entry in the insert loop; validation has
    rejected every entry on which the access would throw. *)
Definition member (mat : json) (k : string) : value :=
  match get mat k with
  | Normal v => v
  | Throw => None
  end.

(** [stmtMaterial.run([recipeId, mat.material_name, mat.quantity,
    mat.material_type, mat.default_npc_price || 0], callback)] for every
    entry, in order.  The guard [if (materialErrorOccurred) return;] is
    evaluated by [forEach] while the runs are being queued, before any
    callback has set the flag, so every entry is run; the result is the
    value of the flag when the callback of [finalize] reads it. *)
Fixpoint run_materials (recipeId : Z) (materials : list json) : M bool :=
  match materials with
  | [] => ret false
  | mat :: rest =>
      r <- insert_material recipeId (member mat "material_name")
             (member mat "quantity") (member mat "material_type")
             (or_else (member mat "default_npc_price") (Some (JNum 0))) ;;
      errs <- run_materials recipeId rest ;;
      ret (match r with Failed _ => true | Done _ => errs end)
  end.

(** [stmtMaterial.finalize(callback)]: the flag after the callback has
    looked at [finalizeErr]. *)
Definition finalize_materials (materialErrorOccurred : bool) : M bool :=
  f <- finalize ;;
  ret (match f with Failed _ => true | Done _ => materialErrorOccurred end).

(** POST /api/items *)
Definition create_recipe (body : request_body) : M response :=
  let name := lookup "name" body in
  let quantity_produced := lookup "quantity_produced" body in
  let npc_sell_price := lookup "npc_sell_price" body in
  let materials := lookup "materials" body in
  if falsy name || falsy quantity_produced || falsy materials
     || negb (isArray materials)
  then ret (Response 400 (Error "Dados inválidos para criar item."))
  else
    match some_invalid (elements materials) with
    | Throw => ret uncaught
    | Normal true =>
        ret (Response 400 (Error "Dados inválidos em um ou mais materiais."))
    | Normal false =>
        begin_transaction ;;;
        r <- insert_recipe name quantity_produced
               (or_else npc_sell_price (Some (JNum 0))) ;;
        match r with
        | Failed msg =>
            rollback ;;;
            ret (Response 500 (Error ("Erro ao salvar receita: " ++ msg)))
        | Done recipeId =>
            e <- run_materials recipeId (elements materials) ;;
            materialErrorOccurred <- finalize_materials e ;;
            if materialErrorOccurred : bool
            then
              rollback ;;;
              ret (Response 500 (Error "Erro ao salvar um ou mais materiais."))
            else
              commit ;;;
              ret (Response 201
                     (MessageId "Receita criada com sucesso!" recipeId))
        end
    end.

(** PUT /api/items/:id *)
Definition update_recipe (id_param : string) (body : request_body)
  : M response :=
  let itemId := parseInt id_param in
  let name := lookup "name" body in
  let quantity_produced := lookup "quantity_produced" body in
  let npc_sell_price := lookup "npc_sell_price" body in
  let materials := lookup "materials" body in
  match itemId with
  | None => ret invalid_id
  | Some itemId =>
  if falsy name || falsy quantity_produced || falsy materials
     || negb (isArray materials)
  then ret (Response 400 (Error "Dados inválidos para atualizar item."))
  else
    match some_invalid (elements materials) with
    | Throw => ret uncaught
    | Normal true =>
        ret (Response 400 (Error "Dados inválidos em um ou mais materiais."))
    | Normal false =>
        begin_transaction ;;;
        r <- update_recipe_row name quantity_produced
               (or_else npc_sell_price (Some (JNum 0))) itemId ;;
        match r with
        | Failed msg =>
            rollback ;;;
            ret (Response 500 (Error ("Erro ao atualizar receita: " ++ msg)))
        | Done O =>
            rollback ;;;
            ret (Response 404 (Error "Item não encontrado para atualização."))
        | Done (S _) =>
            d <- delete_materials itemId ;;
            match d with
            | Failed _ =>
                rollback ;;;
                ret (Response 500 (Error "Erro ao limpar materiais antigos."))
            | Done _ =>
                e <- run_materials itemId (elements materials) ;;
                materialInsertError <- finalize_materials e ;;
                if materialInsertError : bool
                then
                  rollback ;;;
                  ret (Response 500
                         (Error "Erro ao salvar um ou mais materiais atualizados."))
                else
                  commit ;;;
                  ret (Response 200
                         (MessageId "Receita atualizada com sucesso!" itemId))
            end
        end
    end
  end.

(** DELETE /api/items/:id *)
Definition delete_recipe (id_param : string) : M response :=
  match parseInt id_param with
  | None => ret invalid_id
  | Some itemId =>
      r <- delete_recipe_row itemId ;;
      match r with
      | Failed msg =>
          ret (Response 500 (Error ("Erro ao deletar receita: " ++ msg)))
      | Done O => ret (Response 404 (Error "Item não encontrado para deletar."))
      | Done (S _) => ret (Response 200 (Message "Receita deletada com sucesso!"))
      end
  end.

End Api.

Import Js Sql Api.

(* ===================================================================== *)
(** ** Scenarios of the specification *)
(* ===================================================================== *)

(** A fresh connection on an empty database, nothing injected. *)
Definition empty_db : state := State (Tables [] []) None [] [].

(** [{material_name:"Iron", quantity:3, material_type:"ore",
    default_npc_price:5}] *)
Definition iron : json :=
  JObj [("material_name", JStr "Iron"); ("quantity", JNum 3);
        ("material_type", JStr "ore"); ("default_npc_price", JNum 5)].

(** [{material_name:"Copper", quantity:2, material_type:"ore",
    default_npc_price:4}] *)
Definition copper : json :=
  JObj [("material_name", JStr "Copper"); ("quantity", JNum 2);
        ("material_type", JStr "ore"); ("default_npc_price", JNum 4)].

(** [{material_name:"Steel", quantity:1, material_type:"bar",
    default_npc_price:9}] *)
Definition steel : json :=
  JObj [("material_name", JStr "Steel"); ("quantity", JNum 1);
        ("material_type", JStr "bar"); ("default_npc_price", JNum 9)].

(** The body of [create_recipe("Sword", 1, price, materials)]. *)
Definition sword (price : Z) (materials : list json) : request_body :=
  [("name", JStr "Sword"); ("quantity_produced", JNum 1);
   ("npc_sell_price", JNum price); ("materials", JArr materials)].

(** The connection after [create_recipe("Sword", 1, 50, [iron])]. *)
Definition sword_db : state := snd (create_recipe (sword 50 [iron]) empty_db).

(* ===================================================================== *)
(** ** Predicates of the specification *)
(* ===================================================================== *)

(** The first test of both write handlers. *)
Definition missing_field (body : request_body) : bool :=
  falsy (lookup "name" body) || falsy (lookup "quantity_produced" body)
  || falsy (lookup "materials" body) || negb (isArray (lookup "materials" body)).

(** The body passes both tests of the write handlers. *)
Definition accepted (body : request_body) : bool :=
  negb (missing_field body)
  && match some_invalid (elements (lookup "materials" body)) with
     | Normal false => true
     | _ => false
     end.

(** An entry that is not [null] and whose three required members are all
    truthy. *)
Definition entry_complete (mat : json) : Prop :=
  mat <> JNull /\ truthy (member mat "material_name") = true
  /\ truthy (member mat "quantity") = true
  /\ truthy (member mat "material_type") = true.

(** An entry that is not [null] and has a required member that is missing
    or falsy. *)
Definition entry_incomplete (mat : json) : Prop :=
  mat <> JNull
  /\ (truthy (member mat "material_name") = false
      \/ truthy (member mat "quantity") = false
      \/ truthy (member mat "material_type") = false).

(** What the handlers answer 400 to: [name] or [quantity_produced] missing
    or falsy, [materials] not an array, or an incomplete entry with only
    complete entries before it. *)
Definition validation_error (body : request_body) : Prop :=
  truthy (lookup "name" body) = false
  \/ truthy (lookup "quantity_produced" body) = false
  \/ (forall items, lookup "materials" body <> Some (JArr items))
  \/ exists before mat after,
       lookup "materials" body = Some (JArr (before ++ mat :: after)%list)
       /\ Forall entry_complete before /\ entry_incomplete mat.

(** The next statement is made to fail. *)
Definition fails (f : option fault) : bool :=
  match f with
  | Some _ => true
  | None => false
  end.

(** One of the next [n] statements that report to a callback is made to
    fail. *)
Definition failing (n : nat) (s : state) : bool :=
  existsb fails (firstn n (faults s)).

(** The statements with a callback of a create: the recipe insert, one
    insert for each material, the finalize. *)
Definition steps_create (body : request_body) : nat :=
  2 + List.length (elements (lookup "materials" body)).

(** The statements with a callback of an update: the recipe update, the
    delete of the old materials, one insert for each material, the
    finalize. *)
Definition steps_update (body : request_body) : nat :=
  3 + List.length (elements (lookup "materials" body)).

(** The recipe row a request writes. *)
Definition recipe_row_of (i : Z) (body : request_body) : recipe_row :=
  RecipeRow i (bind_param (lookup "name" body))
    (bind_param (lookup "quantity_produced" body))
    (bind_param (or_else (lookup "npc_sell_price" body) (Some (JNum 0)))).

(** The material row written for an entry of [materials]. *)
Definition material_row_of (rid : Z) (mat : json) : material_row :=
  MaterialRow rid (bind_param (member mat "material_name"))
    (bind_param (member mat "quantity"))
    (bind_param (member mat "material_type"))
    (bind_param (or_else (member mat "default_npc_price") (Some (JNum 0)))).

(** The material rows the insert loop leaves in the table under the
    injected failures [fs]: the entries whose insert did not fail. *)
Fixpoint inserted (rid : Z) (materials : list json)
    (fs : list (option fault)) : list material_row :=
  match materials with
  | [] => []
  | mat :: rest =>
      (if fails (hd None fs) then [] else [material_row_of rid mat])
        ++ inserted rid rest (tl fs)
  end.

(** The [recipes] table after the update of recipe [i]. *)
Definition updated_recipes (i : Z) (body : request_body)
    (rows : list recipe_row) : list recipe_row :=
  map (fun r => if id r =? i
                then RecipeRow (id r) (bind_param (lookup "name" body))
                       (bind_param (lookup "quantity_produced" body))
                       (bind_param (or_else (lookup "npc_sell_price" body)
                                      (Some (JNum 0))))
                else r) rows.

(** The [recipe_materials] table without the materials of recipe [i]. *)
Definition without_materials (i : Z) (rows : list material_row)
  : list material_row :=
  filter (fun m => negb (recipe_id m =? i)) rows.

(** A recipe with this id is stored. *)
Definition stored (i : Z) (t : tables) : bool :=
  existsb (fun r => id r =? i) (recipes t).

(** Every material row references a stored recipe. *)
Definition references_ok (t : tables) : bool :=
  forallb (fun m => stored (recipe_id m) t) (recipe_materials t).

(** The requests of the API. *)
Inductive request : Type :=
| ListRecipes
| GetRecipe (id_param : string)
| GetPriceByName (itemName : string)
| CreateRecipe (body : request_body)
| UpdateRecipe (id_param : string) (body : request_body)
| DeleteRecipe (id_param : string).

Definition handle (r : request) : M response :=
  match r with
  | ListRecipes => list_recipes
  | GetRecipe i => get_recipe i
  | GetPriceByName n => get_price_by_name n
  | CreateRecipe b => create_recipe b
  | UpdateRecipe i b => update_recipe i b
  | DeleteRecipe i => delete_recipe i
  end.

(** The failures injected into the statements to come. *)
Definition inject (fs : list (option fault)) (s : state) : state :=
  State (current s) (txn s) fs (log s).

(** The states of the connection between two requests: the empty database,
    then one request after the other, each under any injected failures. *)
Inductive reachable : state -> Prop :=
| reachable_empty : reachable empty_db
| reachable_step (s : state) (fs : list (option fault)) (r : request) :
    reachable s -> reachable (snd (handle r (inject fs s))).

(** A string made of decimal digits only, at least one. *)
Definition numeric_string (s : string) : bool :=
  negb (s =? "")%string && forallb is_digit (list_ascii_of_string s).

(** A non-empty string. *)
Definition is_text (v : value) : bool :=
  match v with
  | Some (JStr s) => negb (s =? "")%string
  | _ => false
  end.

(** A positive number. *)
Definition is_positive (v : value) : bool :=
  match v with
  | Some (JNum z) => 0 <? z
  | _ => false
  end.

Definition is_number (v : value) : bool :=
  match v with
  | Some (JNum _) => true
  | _ => false
  end.

(** A well-formed material: a name, a positive quantity, a type and a
    price. *)
Definition valid_material (mat : json) : bool :=
  is_text (member mat "material_name") && is_positive (member mat "quantity")
  && is_text (member mat "material_type")
  && is_number (member mat "default_npc_price").

(** A valid create or update input: a non-empty name, a positive
    quantity, a price and a list of well-formed materials. *)
Definition valid_recipe (body : request_body) : bool :=
  is_text (lookup "name" body) && is_positive (lookup "quantity_produced" body)
  && is_number (lookup "npc_sell_price" body)
  && isArray (lookup "materials" body)
  && forallb valid_material (elements (lookup "materials" body)).

(** A value as it appears in an answer; [undefined] does not occur in the
    uses below. *)
Definition the (v : value) : json :=
  match v with
  | Some j => j
  | None => JNull
  end.

(** The material of an answer that carries the members of an entry. *)
Definition material_of_json (mat : json) : material :=
  Material (the (member mat "material_name")) (the (member mat "quantity"))
    (the (member mat "material_type")) (the (member mat "default_npc_price")).

(** The order of the list answer, on stored rows. *)
Definition name_le (a b : recipe_row) : Prop :=
  sql_leb (name a) (name b) = true.

(** What "sorted by name ascending" asks of two texts, said without the
    comparison the query runs: the empty text comes before every text; of
    two texts that differ in their first character the one with the
    smaller character code comes first; two texts with the same first
    character are ordered as their remainders are. *)
Inductive spec_text_le : string -> string -> Prop :=
| empty_text_first (b : string) : spec_text_le "" b
| smaller_code_first (c d : ascii) (a b : string) :
    (N_of_ascii c < N_of_ascii d)%N ->
    spec_text_le (String c a) (String d b)
| same_code_then_rest (c : ascii) (a b : string) :
    spec_text_le a b -> spec_text_le (String c a) (String c b).

(** The same for the names the list answers: a missing name ([null])
    before every name, a number before every text, numbers by size, texts
    by [spec_text_le]. *)
Inductive spec_name_le : json -> json -> Prop :=
| null_name_first (b : json) : spec_name_le JNull b
| numbers_by_size (x y : Z) : x <= y -> spec_name_le (JNum x) (JNum y)
| number_before_text (x : Z) (t : string) :
    spec_name_le (JNum x) (JStr t)
| texts_by_code (a b : string) :
    spec_text_le a b -> spec_name_le (JStr a) (JStr b).

(** The entries of a list answer are in ascending order of name. *)
Definition ascending_by_name (rows : list item) : Prop :=
  StronglySorted (fun a b => spec_name_le (item_name a) (item_name b)) rows.

(** Three recipes stored in the order Sword, bow, Axe. *)
Definition armory_db : state :=
  State (Tables [RecipeRow 1 (SText "Sword") (SInt 1) (SInt 50);
                 RecipeRow 2 (SText "bow") (SInt 1) (SInt 20);
                 RecipeRow 3 (SText "Axe") (SInt 1) (SInt 30)] [])
    None [] [].

(** The integers that a JavaScript number holds exactly
    ([Number.isSafeInteger]): those of absolute value at most 2^53 - 1. *)
Definition isSafeInteger (z : Z) : bool := Z.abs z <=? 9007199254740991.

(** How a price reads back: 0 when the request left it out, the number
    itself when the request gave one. *)
Definition price_read_back (v : value) (out : json) : Prop :=
  (v = None -> out = JNum 0) /\ (forall p, v = Some (JNum p) -> out = JNum p).

(** The prices of a recipe answer against the request that wrote it. *)
Definition prices_read_back (body : request_body) (r : full_recipe) : Prop :=
  price_read_back (lookup "npc_sell_price" body) (rec_npc_sell_price r)
  /\ Forall2
       (fun mat out =>
          price_read_back (member mat "default_npc_price")
            (mat_default_npc_price out))
       (elements (lookup "materials" body)) (rec_materials r).

(** A negative number. *)
Definition is_negative (v : json) : bool :=
  match v with
  | JNum z => z <? 0
  | _ => false
  end.

(** A stored value that is not NULL. *)
Definition not_null (v : sqlval) : bool :=
  match v with
  | SNull => false
  | _ => true
  end.

(** No column of the recipe row is NULL. *)
Definition recipe_row_filled (r : recipe_row) : bool :=
  not_null (name r) && not_null (quantity_produced r)
  && not_null (npc_sell_price r).

(** No column of the material row is NULL. *)
Definition material_row_filled (m : material_row) : bool :=
  not_null (material_name m) && not_null (quantity m)
  && not_null (material_type m) && not_null (default_npc_price m).

(** No column of any row is NULL. *)
Definition no_null_columns (t : tables) : bool :=
  forallb recipe_row_filled (recipes t)
  && forallb material_row_filled (recipe_materials t).

(** The test of [WHERE name = ?] for the text [n]. *)
Definition named (n : string) (r : recipe_row) : bool :=
  sqlval_eqb (name r) (SText n).

(** The entry of the list answer for a row. *)
Definition item_of_recipe (r : recipe_row) : item :=
  Item (id r) (column (name r)) (column (npc_sell_price r)).

(** The tables after a create that is carried out. *)
Definition created (body : request_body) (t : tables) : tables :=
  Tables
    (recipes t ++ [recipe_row_of (next_id (recipes t)) body])
    (recipe_materials t
       ++ map (material_row_of (next_id (recipes t)))
            (elements (lookup "materials" body))).

(** The tables after an update of recipe [i] that is carried out. *)
Definition updated (i : Z) (body : request_body) (t : tables) : tables :=
  Tables
    (updated_recipes i body (recipes t))
    (without_materials i (recipe_materials t)
       ++ map (material_row_of i) (elements (lookup "materials" body))).

(** The tables after a delete of recipe [i] that is carried out. *)
Definition deleted (i : Z) (t : tables) : tables :=
  Tables (filter (fun r => negb (id r =? i)) (recipes t))
    (without_materials i (recipe_materials t)).

(** The text does not start with a decimal digit. *)
Definition no_leading_digit (tail : string) : bool :=
  match tail with
  | String c _ => negb (is_digit c)
  | EmptyString => true
  end.

(** A statement that is not one of BEGIN TRANSACTION, COMMIT and
    ROLLBACK. *)
Definition data_statement (sql : string) : bool :=
  negb ((sql =? "BEGIN TRANSACTION") || (sql =? "COMMIT")
        || (sql =? "ROLLBACK"))%string.

(** The statements of a request that opens a transaction: BEGIN first,
    then statements on the data, then [closing] last. *)
Definition bracketed (before after : list string) (closing : string) : Prop :=
  exists middle : list string,
    after = (before ++ "BEGIN TRANSACTION" :: middle ++ [closing])%list
    /\ forallb data_statement middle = true.

(** The statement is made to fail in the way that rolls the transaction
    back. *)
Definition aborts (f : option fault) : bool :=
  match f with
  | Some (FailsAndRollsBack _) => true
  | _ => false
  end.

(** One of the next [n] statements that report to a callback is made to
    fail in the way that rolls the transaction back. *)
Definition aborting (n : nat) (s : state) : bool :=
  existsb aborts (firstn n (faults s)).

(** The connection holding the Sword recipe, on a disk that fills up at
    the third statement of the next request: SQLite reports SQLITE_FULL
    and rolls the open transaction back. *)
Definition full_disk_db : state :=
  inject [None; None;
          Some (FailsAndRollsBack "SQLITE_FULL: database or disk is full")]
    sword_db.

(** Case analysis on the scrutinee of a [match] of the goal. *)
Ltac case_scrutinee :=
  match goal with
  | |- context [match ?e with _ => _ end] => destruct e
  end.

(* ===================================================================== *)
(** ** The scenario of the specification *)
(* ===================================================================== *)

Example create_sword :
  fst (create_recipe (sword 50 [iron]) empty_db)
  = Response 201 (MessageId "Receita criada com sucesso!" 1).
Proof. reflexivity. Qed.

Example get_sword :
  fst (get_recipe "1" sword_db)
  = Response 200
      (Recipe (FullRecipe 1 (JStr "Sword") (JNum 1) (JNum 50)
                 [Material (JStr "Iron") (JNum 3) (JStr "ore") (JNum 5)])).
Proof. reflexivity. Qed.

(* ===================================================================== *)
(** ** Validation *)
(* ===================================================================== *)

Lemma material_invalid_null : material_invalid JNull = Throw.
Proof. reflexivity. Qed.

Lemma material_invalid_false (mat : json) :
  material_invalid mat = Normal false <-> entry_complete mat.
Proof.
  unfold entry_complete.
  destruct mat; cbv [material_invalid member get falsy];
    try (cbn; split; [discriminate | intros [_ [H _]]; discriminate]).
  destruct (truthy (lookup "material_name" members));
      destruct (truthy (lookup "quantity" members));
      destruct (truthy (lookup "material_type" members)); cbn;
      (split;
       [ first [discriminate | intros _; repeat split; discriminate]
       | first [reflexivity | intros (_ & H1 & H2 & H3); discriminate] ]).
Qed.

Lemma material_invalid_true (mat : json) :
  material_invalid mat = Normal true <-> entry_incomplete mat.
Proof.
  unfold entry_incomplete.
  destruct mat; cbv [material_invalid member get falsy];
    try (cbn; split; [intros _; split; [discriminate | now left] | reflexivity]).
  - cbn. split; [discriminate | intros [H _]; congruence].
  - destruct (truthy (lookup "material_name" members));
      destruct (truthy (lookup "quantity" members));
      destruct (truthy (lookup "material_type" members)); cbn;
      (split;
       [ first [discriminate | intros _; split; [discriminate | tauto]]
       | first [reflexivity | intros (_ & [H | [H | H]]); discriminate] ]).
Qed.

Lemma some_invalid_false (l : list json) :
  some_invalid l = Normal false <-> Forall entry_complete l.
Proof.
  induction l as [| mat rest IH]; simpl.
  - split; [constructor | reflexivity].
  - destruct (material_invalid mat) as [[|]|] eqn:E.
    + split; [discriminate |].
      intros H. inversion H as [| ? ? Hm _]; subst.
      apply material_invalid_false in Hm. congruence.
    + rewrite IH. apply material_invalid_false in E.
      split; [now constructor |].
      intros H. now inversion H.
    + split; [discriminate |].
      intros H. inversion H as [| ? ? Hm _]; subst.
      apply material_invalid_false in Hm. congruence.
Qed.

Lemma some_invalid_true (l : list json) :
  some_invalid l = Normal true <->
  exists before mat after,
    l = (before ++ mat :: after)%list /\ Forall entry_complete before
    /\ entry_incomplete mat.
Proof.
  induction l as [| mat rest IH]; simpl.
  - split; [discriminate |].
    intros (before & m & after & H & _). now destruct before.
  - destruct (material_invalid mat) as [[|]|] eqn:E.
    + split; [| reflexivity].
      intros _. exists [], mat, rest.
      apply material_invalid_true in E.
      split; [reflexivity | split; [constructor | exact E]].
    + rewrite IH. split.
      * intros (before & m & after & -> & Hb & Hm).
        exists (mat :: before), m, after.
        split; [reflexivity | split; [| exact Hm]].
        constructor; trivial. now apply material_invalid_false.
      * intros (before & m & after & H & Hb & Hm).
        destruct before as [| b before]; simpl in H; injection H as <- ->.
        -- apply material_invalid_true in Hm. congruence.
        -- exists before, m, after.
           split; [reflexivity | split; [| exact Hm]].
           now inversion Hb.
    + split; [discriminate |].
      intros (before & m & after & H & Hb & Hm).
      destruct before as [| b before]; simpl in H; injection H as <- ->.
      * apply material_invalid_true in Hm. congruence.
      * inversion Hb as [| ? ? Hc _]; subst.
        apply material_invalid_false in Hc. congruence.
Qed.

(* ===================================================================== *)
(** ** Statements and transactions *)
(* ===================================================================== *)

Lemma failing_S (n : nat) (s : state) :
  failing (S n) s
  = fails (hd None (faults s)) || failing n (snd (next_fault s)).
Proof.
  unfold failing, next_fault. simpl.
  destruct (faults s) as [| f fs]; simpl; trivial.
  now rewrite firstn_nil.
Qed.

Lemma skipn_tl {A : Type} (n : nat) (l : list A) :
  skipn n (tl l) = skipn (S n) l.
Proof. destruct l; simpl; trivial. now rewrite skipn_nil. Qed.

Lemma failing_0 (s : state) : failing 0 s = false.
Proof. reflexivity. Qed.

(** A statement leaves the transaction alone, takes one injected failure,
    and either fails without effect or applies its effect. *)
Lemma statement_spec {A : Type} (sql : string) (effect : tables -> A * tables)
    (s : state) (r : outcome A) (s' : state) :
  statement sql effect s = (r, s') ->
  txn s' = txn s /\ faults s' = tl (faults s) /\ log s' = (log s ++ [sql])%list
  /\ ((exists f, hd None (faults s) = Some f /\ r = Failed (message f)
                 /\ current s' = current s)
      \/ (hd None (faults s) = None /\ r = Done (fst (effect (current s)))
          /\ current s' = snd (effect (current s)))).
Proof.
  unfold statement, next_fault, issue, set_tables. simpl.
  destruct (hd None (faults s)) as [f |].
  - intros [= <- <-]. simpl. repeat split. left. now exists f.
  - destruct (effect (current s)) as [a t]. intros [= <- <-]. simpl.
    repeat split. now right.
Qed.

(** A statement of a write: it takes one injected failure and is logged;
    it fails without effect, fails and leaves the connection rolled back,
    fails on a constraint without effect, or applies its effect. *)
Lemma write_statement_spec {A : Type} (sql : string)
    (violation : tables -> option string) (effect : tables -> A * tables)
    (s : state) (r : outcome A) (s' : state) :
  write_statement sql violation effect s = (r, s') ->
  faults s' = tl (faults s) /\ log s' = (log s ++ [sql])%list
  /\ ((exists msg, hd None (faults s) = Some (Fails msg) /\ r = Failed msg
                   /\ current s' = current s /\ txn s' = txn s)
      \/ (exists msg, hd None (faults s) = Some (FailsAndRollsBack msg)
                      /\ r = Failed msg /\ txn s' = None
                      /\ current s' = match txn s with
                                      | Some t => t
                                      | None => current s
                                      end)
      \/ (hd None (faults s) = None
          /\ (exists msg, violation (current s) = Some msg /\ r = Failed msg)
          /\ current s' = current s /\ txn s' = txn s)
      \/ (hd None (faults s) = None /\ violation (current s) = None
          /\ r = Done (fst (effect (current s)))
          /\ current s' = snd (effect (current s)) /\ txn s' = txn s)).
Proof.
  unfold write_statement, next_fault, issue, set_tables, rolled_back.
  cbn [faults current txn log].
  destruct (hd None (faults s)) as [[msg | msg] |].
  - intros [= <- <-]. cbn [faults current txn log]. repeat split.
    left. now exists msg.
  - destruct (txn s) as [t |]; intros [= <- <-];
      cbn [faults current txn log]; repeat split;
      right; left; now exists msg.
  - destruct (violation (current s)) as [msg |].
    + intros [= <- <-]. cbn [faults current txn log]. repeat split.
      right. right. left. repeat split. now exists msg.
    + destruct (effect (current s)) as [a t]. intros [= <- <-].
      cbn [faults current txn log fst snd]. repeat split.
      right. right. right. now repeat split.
Qed.

Lemma write_statement_next {A : Type} (sql : string)
    (violation : tables -> option string) (effect : tables -> A * tables)
    (s : state) (n : nat) :
  failing n (snd (write_statement sql violation effect s))
  = failing n (snd (next_fault s))
  /\ aborting n (snd (write_statement sql violation effect s))
     = aborting n (snd (next_fault s)).
Proof.
  destruct (write_statement sql violation effect s) as [r s'] eqn:E.
  apply write_statement_spec in E as (Hf & _). unfold failing, aborting.
  simpl. now rewrite Hf.
Qed.

(** After a statement, the failures still to come are those after the one
    it took. *)
Lemma statement_next {A : Type} (sql : string) (effect : tables -> A * tables)
    (s : state) (n : nat) :
  failing n (snd (statement sql effect s)) = failing n (snd (next_fault s)).
Proof.
  destruct (statement sql effect s) as [r s'] eqn:E.
  apply statement_spec in E as (_ & Hf & _). unfold failing. simpl.
  now rewrite Hf.
Qed.

Lemma finalize_spec (s : state) (r : outcome unit) (s' : state) :
  finalize s = (r, s') ->
  txn s' = txn s /\ faults s' = tl (faults s) /\ current s' = current s
  /\ log s' = log s
  /\ (match r with Failed _ => true | Done _ => false end
      = fails (hd None (faults s))).
Proof.
  unfold finalize, next_fault. simpl.
  destruct (hd None (faults s)); intros [= <- <-]; simpl; repeat split.
Qed.

Lemma begin_spec (s : state) :
  txn s = None ->
  let s' := snd (begin_transaction s) in
  txn s' = Some (current s) /\ current s' = current s
  /\ faults s' = faults s.
Proof.
  intros H. unfold begin_transaction, issue. simpl. rewrite H. simpl.
  repeat split.
Qed.

Lemma rollback_spec (s : state) (t : tables) :
  txn s = Some t ->
  let s' := snd (rollback s) in
  txn s' = None /\ current s' = t /\ faults s' = faults s.
Proof.
  intros H. unfold rollback, issue. simpl. rewrite H. simpl. repeat split.
Qed.

Lemma commit_spec (s : state) :
  let s' := snd (commit s) in
  txn s' = None /\ current s' = current s /\ faults s' = faults s.
Proof. unfold commit, issue. simpl. repeat split. Qed.

Lemma rollback_idle (s : state) :
  txn s = None ->
  txn (snd (rollback s)) = None /\ current (snd (rollback s)) = current s.
Proof.
  intros H. unfold rollback, issue. simpl. rewrite H. simpl. now split.
Qed.

Lemma aborting_S (n : nat) (s : state) :
  aborting (S n) s
  = aborts (hd None (faults s)) || aborting n (snd (next_fault s)).
Proof.
  unfold aborting, next_fault. simpl.
  destruct (faults s) as [| f fs]; simpl; trivial.
  now rewrite firstn_nil.
Qed.

Lemma aborts_fails (f : option fault) : aborts f = true -> fails f = true.
Proof. destruct f as [[|] |]; simpl; trivial; discriminate. Qed.

Lemma aborting_failing (n : nat) (s : state) :
  aborting n s = true -> failing n s = true.
Proof.
  unfold aborting, failing. rewrite !existsb_exists.
  intros (f & Hin & Hf). exists f. split; trivial. now apply aborts_fails.
Qed.

Lemma foreign_key_stored (rid : Z) (t : tables) :
  foreign_key rid t = None <-> stored rid t = true.
Proof.
  unfold foreign_key, stored.
  destruct (existsb _ _); split; trivial; discriminate.
Qed.

(** The insert loop once the connection is in autocommit mode: the rows
    whose insert goes through are added to the table for good, and none
    goes through when no recipe has the id. *)
Lemma run_materials_autocommit (rid : Z) (mats : list json) :
  forall (s : state) (e : bool) (s' : state),
    txn s = None ->
    run_materials rid mats s = (e, s') ->
    txn s' = None
    /\ faults s' = skipn (List.length mats) (faults s)
    /\ recipes (current s') = recipes (current s)
    /\ exists extra : list material_row,
         recipe_materials (current s')
         = (recipe_materials (current s) ++ extra)%list
         /\ (forall m, In m extra -> In m (map (material_row_of rid) mats))
         /\ (stored rid (current s) = false -> extra = []).
Proof.
  induction mats as [| mat rest IH]; intros s e s' Hidle.
  - simpl. intros [= <- <-]. repeat split; trivial.
    exists []. rewrite app_nil_r.
    split; [reflexivity | split; [intros m [] | reflexivity]].
  - cbn [run_materials]. unfold bind at 1.
    destruct (insert_material rid _ _ _ _ s) as [r s1] eqn:E1.
    unfold bind at 1.
    destruct (run_materials rid rest s1) as [errs s2] eqn:E2.
    unfold ret. intros [= <- <-].
    unfold insert_material in E1.
    apply write_statement_spec in E1 as (Hf1 & _ & Hc).
    assert (Hsame : txn s1 = None
                    /\ recipes (current s1) = recipes (current s)
                    /\ (recipe_materials (current s1)
                        = recipe_materials (current s)
                        \/ (stored rid (current s) = true
                            /\ recipe_materials (current s1)
                               = (recipe_materials (current s)
                                    ++ [material_row_of rid mat])%list))).
    { destruct Hc as [(msg & _ & _ & Hc & Ht) | [(msg & _ & _ & Ht & Hc)
                     | [(_ & _ & Hc & Ht) | (_ & Hv & _ & Hc & Ht)]]].
      - rewrite Hc. repeat split; try congruence. now left.
      - rewrite Hidle in Hc. rewrite Hc. repeat split; trivial. now left.
      - rewrite Hc. repeat split; try congruence. now left.
      - apply foreign_key_stored in Hv. rewrite Hc. cbn [snd recipes
          recipe_materials]. repeat split; try congruence. now right. }
    destruct Hsame as (Ht1 & Hr1 & Hm1).
    destruct (IH s1 errs s2 Ht1 E2) as (Ht2 & Hf2 & Hr2 & extra & Hm2 & Hin & Hno).
    assert (Hst1 : stored rid (current s1) = stored rid (current s)).
    { unfold stored. now rewrite Hr1. }
    repeat split; trivial.
    + rewrite Hf2, Hf1. apply skipn_tl.
    + congruence.
    + destruct Hm1 as [Hm1 | (Hst & Hm1)].
      * exists extra. rewrite Hm2, Hm1. repeat split; trivial.
        -- intros m Hm. cbn [map]. right. now apply Hin.
        -- intros Hns. apply Hno. congruence.
      * exists (material_row_of rid mat :: extra).
        rewrite Hm2, Hm1, <- app_assoc. repeat split; trivial.
        -- intros m [<- | Hm]; cbn [map]; [now left | right; now apply Hin].
        -- congruence.
Qed.

(** The insert loop inside the transaction of a write, for the id of a
    stored recipe: every entry is run and the flag is raised exactly when
    an insert was made to fail.  As long as no failure rolls the
    transaction back, the table gains, inside the transaction, the rows
    whose insert did not fail.  Once a failure has rolled it back, the
    tables are those of BEGIN plus the rows of the later entries whose
    insert went through, added for good. *)
Lemma run_materials_spec (rid : Z) (mats : list json) :
  forall (s : state) (snap : tables) (e : bool) (s' : state),
    txn s = Some snap -> stored rid (current s) = true ->
    run_materials rid mats s = (e, s') ->
    e = failing (List.length mats) s
    /\ faults s' = skipn (List.length mats) (faults s)
    /\ ((aborting (List.length mats) s = false
         /\ txn s' = Some snap
         /\ recipes (current s') = recipes (current s)
         /\ recipe_materials (current s')
            = (recipe_materials (current s)
                 ++ inserted rid mats (faults s))%list)
        \/ (aborting (List.length mats) s = true
            /\ txn s' = None
            /\ recipes (current s') = recipes snap
            /\ exists extra : list material_row,
                 recipe_materials (current s')
                 = (recipe_materials snap ++ extra)%list
                 /\ (forall m, In m extra ->
                                In m (map (material_row_of rid) mats))
                 /\ (stored rid snap = false -> extra = []))).
Proof.
  induction mats as [| mat rest IH]; intros s snap e s' Htxn Hst.
  - simpl. intros [= <- <-]. rewrite app_nil_r. repeat split. now left.
  - cbn [run_materials]. unfold bind at 1.
    destruct (insert_material rid _ _ _ _ s) as [r s1] eqn:E1.
    unfold bind at 1.
    destruct (run_materials rid rest s1) as [errs s2] eqn:E2.
    unfold ret. intros [= <- <-].
    pose proof (write_statement_next
                  "INSERT INTO recipe_materials (recipe_id, material_name, quantity, material_type, default_npc_price) VALUES (?, ?, ?, ?, ?)"
                  (foreign_key rid)
                  (fun t =>
                     (tt, Tables (recipes t)
                            (recipe_materials t ++
                               [MaterialRow rid
                                  (bind_param (member mat "material_name"))
                                  (bind_param (member mat "quantity"))
                                  (bind_param (member mat "material_type"))
                                  (bind_param
                                     (or_else (member mat "default_npc_price")
                                        (Some (JNum 0))))])))
                  s (List.length rest)) as Hnext.
    unfold insert_material in E1. rewrite E1 in Hnext. cbn [snd] in Hnext.
    destruct Hnext as [Hnf Hna].
    apply write_statement_spec in E1 as (Hf1 & _ & Hc).
    cbn [List.length inserted]. rewrite failing_S, aborting_S.
    destruct Hc as [(msg & Hh & -> & Hc & Ht) | [(msg & Hh & -> & Ht & Hc)
                   | [(Hh & (msg & Hv & _) & _) | (Hh & _ & -> & Hc & Ht)]]];
      rewrite ?Hh; cbn [fails aborts orb].
    + (* the insert fails, the transaction stays open *)
      assert (Hst1 : stored rid (current s1) = true) by now rewrite Hc.
      destruct (IH s1 snap errs s2 (eq_trans Ht Htxn) Hst1 E2)
        as (_ & Hf2 & Hcase).
      split; trivial. split; [rewrite Hf2, Hf1; apply skipn_tl |].
      rewrite <- Hna. rewrite Hc, Hf1 in Hcase. cbn [app].
      destruct Hcase as [Hcase | (Ha & Ht2 & Hr2 & extra & Hm2 & Hin & Hno)];
        [now left |].
      right. repeat split; trivial.
      exists extra. repeat split; trivial.
      intros m Hm. cbn [map]. right. now apply Hin.
    + (* the insert fails and the transaction is rolled back *)
      rewrite Htxn in Hc.
      destruct (run_materials_autocommit rid rest s1 errs s2 Ht E2)
        as (Ht2 & Hf2 & Hr2 & extra & Hm2 & Hin & Hno).
      split; trivial. split; [rewrite Hf2, Hf1; apply skipn_tl |].
      right. repeat split; trivial; [congruence |].
      exists extra. rewrite Hm2, Hc. repeat split; trivial.
      * intros m Hm. cbn [map]. right. now apply Hin.
      * intros Hns. apply Hno. now rewrite Hc.
    + (* the foreign key cannot fail: the recipe is stored *)
      apply foreign_key_stored in Hst. congruence.
    + (* the insert goes through *)
      cbn [snd fst] in Hc.
      assert (Hst1 : stored rid (current s1) = true).
      { unfold stored in *. now rewrite Hc. }
      destruct (IH s1 snap errs s2 (eq_trans Ht Htxn) Hst1 E2)
        as (He & Hf2 & Hcase).
      split; [now rewrite He, Hnf |].
      split; [rewrite Hf2, Hf1; apply skipn_tl |].
      rewrite <- Hna. rewrite Hc, Hf1 in Hcase.
      cbn [recipes recipe_materials] in Hcase.
      destruct Hcase as [(Ha & Ht2 & Hr2 & Hm2) | (Ha & Ht2 & Hr2 & extra & Hm2 & Hin & Hno)].
      * left. repeat split; trivial.
        rewrite Hm2, <- app_assoc. reflexivity.
      * right. repeat split; trivial.
        exists extra. repeat split; trivial.
        intros m Hm. cbn [map]. right. now apply Hin.
Qed.

Lemma inserted_all (rid : Z) (mats : list json) :
  forall fs : list (option fault),
    existsb fails (firstn (List.length mats) fs) = false ->
    inserted rid mats fs = map (material_row_of rid) mats.
Proof.
  induction mats as [| mat rest IH]; intros fs H; simpl; trivial.
  destruct fs as [| f fs]; simpl in *.
  - f_equal. apply IH. now rewrite firstn_nil.
  - apply orb_false_iff in H as [-> H]. simpl. f_equal. now apply IH.
Qed.

Lemma inserted_recipe_id (rid : Z) (mats : list json) :
  forall (fs : list (option fault)) (m : material_row),
    In m (inserted rid mats fs) -> recipe_id m = rid.
Proof.
  induction mats as [| mat rest IH]; intros fs m; simpl; [tauto |].
  rewrite in_app_iff. intros [H | H]; [| now apply IH in H].
  destruct (fails (hd None fs)); simpl in H; [tauto |].
  destruct H as [<- | []]. reflexivity.
Qed.

Lemma failing_snoc (n : nat) (s : state) :
  failing (S n) s = failing n s || fails (hd None (skipn n (faults s))).
Proof.
  unfold failing. generalize (faults s) as l.
  induction n as [| n IH]; intros [| f l]; trivial.
  - simpl. now rewrite orb_false_r.
  - change (firstn (S (S n)) (f :: l)) with (f :: firstn (S n) l).
    change (firstn (S n) (f :: l)) with (f :: firstn n l).
    change (skipn (S n) (f :: l)) with (skipn n l).
    cbn [existsb]. rewrite IH. now rewrite orb_assoc.
Qed.

Lemma finalize_materials_spec (e : bool) (s : state) (flag : bool)
    (s' : state) :
  finalize_materials e s = (flag, s') ->
  flag = e || fails (hd None (faults s))
  /\ txn s' = txn s /\ current s' = current s /\ faults s' = tl (faults s).
Proof.
  unfold finalize_materials, bind, ret.
  destruct (finalize s) as [f s1] eqn:E.
  apply finalize_spec in E as (Ht & Hf & Hc & _ & Hr).
  intros [= <- <-]. repeat split; trivial.
  destruct f; rewrite <- Hr.
  - now rewrite orb_false_r.
  - now rewrite orb_true_r.
Qed.

(** The insert loop followed by the finalize: the flag read by the
    callback of [finalize] is raised exactly when one of the inserts or the
    finalize was made to fail. *)
Lemma write_materials_spec (rid : Z) (mats : list json) (s : state)
    (snap : tables) (e : bool) (s1 : state) (flag : bool) (s' : state) :
  txn s = Some snap -> stored rid (current s) = true ->
  run_materials rid mats s = (e, s1) ->
  finalize_materials e s1 = (flag, s') ->
  flag = failing (S (List.length mats)) s
  /\ ((aborting (List.length mats) s = false
       /\ txn s' = Some snap
       /\ recipes (current s') = recipes (current s)
       /\ recipe_materials (current s')
          = (recipe_materials (current s) ++ inserted rid mats (faults s))%list)
      \/ (aborting (List.length mats) s = true
          /\ txn s' = None
          /\ recipes (current s') = recipes snap
          /\ exists extra : list material_row,
               recipe_materials (current s')
               = (recipe_materials snap ++ extra)%list
               /\ (forall m, In m extra ->
                              In m (map (material_row_of rid) mats))
               /\ (stored rid snap = false -> extra = []))).
Proof.
  intros Htxn Hst E1 E2.
  apply (run_materials_spec rid mats s snap) in E1 as (He & Hf & Hcase);
    trivial.
  apply finalize_materials_spec in E2 as (Hflag & Ht2 & Hc2 & _).
  split; [rewrite failing_snoc, <- Hf, <- He; exact Hflag |].
  rewrite Ht2, Hc2. exact Hcase.
Qed.

Lemma changes_zero {A : Type} (f : A -> bool) (l : list A) :
  List.length (filter f l) = O <-> existsb f l = false.
Proof.
  induction l as [| a l IH]; simpl; [tauto |].
  destruct (f a); simpl; [split; discriminate | exact IH].
Qed.

Lemma accepted_inv (body : request_body) :
  accepted body = true ->
  missing_field body = false
  /\ some_invalid (elements (lookup "materials" body)) = Normal false.
Proof.
  unfold accepted. intros H. apply andb_true_iff in H as [H1 H2].
  apply negb_true_iff in H1. split; trivial.
  destruct (some_invalid _) as [[|]|]; trivial; discriminate.
Qed.

(* ===================================================================== *)
(** ** What the write handlers do *)
(* ===================================================================== *)

(** A body that does not pass validation is answered without a statement:
    the connection is left as it was. *)
Lemma create_recipe_rejected (body : request_body) (s : state) :
  accepted body = false ->
  snd (create_recipe body s) = s
  /\ (status (fst (create_recipe body s)) = 400
      \/ fst (create_recipe body s) = uncaught).
Proof.
  unfold accepted, create_recipe. fold (missing_field body).
  destruct (missing_field body); simpl; [intros _; split; [| left]; trivial |].
  destruct (some_invalid _) as [[|]|]; simpl; try discriminate; intros _;
    split; trivial; [now left | now right].
Qed.

Lemma update_recipe_rejected (id_param : string) (body : request_body)
    (s : state) :
  accepted body = false ->
  snd (update_recipe id_param body s) = s
  /\ (status (fst (update_recipe id_param body s)) = 400
      \/ fst (update_recipe id_param body s) = uncaught).
Proof.
  unfold accepted, update_recipe. fold (missing_field body).
  destruct (parseInt id_param); [| intros _; split; [| left]; trivial].
  destruct (missing_field body); simpl; [intros _; split; [| left]; trivial |].
  destruct (some_invalid _) as [[|]|]; simpl; try discriminate; intros _;
    split; trivial; [now left | now right].
Qed.

Lemma stored_iff (i : Z) (t : tables) :
  stored i t = true <-> exists r, In r (recipes t) /\ id r = i.
Proof.
  unfold stored. rewrite existsb_exists.
  split; intros (r & Hr & H); exists r; split; trivial; now apply Z.eqb_eq.
Qed.

Lemma next_id_fresh (rows : list recipe_row) (r : recipe_row) :
  In r rows -> id r < next_id rows.
Proof.
  unfold next_id. induction rows as [| r' rows IH]; cbn [In fold_right];
    [tauto |].
  intros [-> | H]; [lia |]. apply IH in H. lia.
Qed.

Lemma next_id_not_stored (t : tables) : stored (next_id (recipes t)) t = false.
Proof.
  destruct (stored _ t) eqn:E; trivial.
  apply stored_iff in E as (r & Hr & H).
  apply next_id_fresh in Hr. lia.
Qed.

Lemma updated_recipes_stored (i j : Z) (body : request_body)
    (rows : list recipe_row) (ms ms' : list material_row) :
  stored j (Tables (updated_recipes i body rows) ms')
  = stored j (Tables rows ms).
Proof.
  unfold stored, updated_recipes. cbn [recipes].
  induction rows as [| r rows IH]; simpl; trivial.
  rewrite IH. f_equal. now destruct (id r =? i).
Qed.

Lemma aborting_S_le (n : nat) (s : state) :
  aborting n s = true -> aborting (S n) s = true.
Proof.
  unfold aborting. generalize (faults s). clear s.
  induction n as [| n IH]; intros [| f fs]; try discriminate.
  change (firstn (S n) (f :: fs)) with (f :: firstn n fs).
  change (firstn (S (S n)) (f :: fs)) with (f :: firstn (S n) fs).
  cbn [existsb]. intros H. apply orb_true_iff in H as [H | H].
  - now rewrite H.
  - rewrite (IH _ H). apply orb_true_r.
Qed.

Lemma tables_eta (t t' : tables) :
  recipes t' = recipes t -> recipe_materials t' = recipe_materials t ->
  t' = t.
Proof. destruct t, t'. simpl. now intros -> ->. Qed.

(** The two outcomes of a create whose body passes validation: a failure
    injected into one of its statements gives 500 with the tables as they
    were; otherwise 201 with the new recipe row and one row for each
    material.  A failure that rolls the transaction back leaves nothing
    either: the recipe row is gone with the transaction, and the foreign
    key refuses the material rows of the inserts that follow. *)
Lemma create_recipe_outcome (body : request_body) (s : state)
    (resp : response) (s' : state) :
  accepted body = true -> txn s = None ->
  create_recipe body s = (resp, s') ->
  txn s' = None
  /\ ((failing (steps_create body) s = true /\ status resp = 500
       /\ current s' = current s)
      \/ (failing (steps_create body) s = false
          /\ resp = Response 201
                      (MessageId "Receita criada com sucesso!"
                         (next_id (recipes (current s))))
          /\ current s'
             = Tables
                 (recipes (current s)
                    ++ [recipe_row_of (next_id (recipes (current s))) body])
                 (recipe_materials (current s)
                    ++ map (material_row_of (next_id (recipes (current s))))
                         (elements (lookup "materials" body))))).
Proof.
  intros Hacc Hidle. apply accepted_inv in Hacc as [Hmiss Hsome].
  unfold create_recipe. fold (missing_field body). rewrite Hmiss, Hsome.
  unfold steps_create.
  set (mats := elements (lookup "materials" body)).
  change (2 + List.length mats)%nat with (S (S (List.length mats))).
  rewrite failing_S.
  unfold bind at 1.
  destruct (begin_transaction s) as [[] s0] eqn:E0.
  pose proof (begin_spec s Hidle) as (Ht0 & Hc0 & Hf0).
  rewrite E0 in Ht0, Hc0, Hf0. cbn [snd] in Ht0, Hc0, Hf0.
  unfold bind at 1.
  destruct (insert_recipe _ _ _ s0) as [r s1] eqn:E1.
  assert (Hnext : failing (S (List.length mats)) s1
                  = failing (S (List.length mats)) (snd (next_fault s))).
  { replace s1 with (snd (insert_recipe (lookup "name" body)
                            (lookup "quantity_produced" body)
                            (or_else (lookup "npc_sell_price" body)
                               (Some (JNum 0))) s0)) by now rewrite E1.
    unfold insert_recipe. rewrite (proj1 (write_statement_next _ _ _ _ _)).
    unfold failing, next_fault. simpl. now rewrite Hf0. }
  assert (Hback : forall st st' u, txn st = Some (current s) ->
                    rollback st = (u, st') ->
                    txn st' = None /\ current st' = current s).
  { intros st st' u Hst Est.
    pose proof (rollback_spec st (current s) Hst) as Hrb.
    rewrite Est in Hrb. cbn [snd] in Hrb. tauto. }
  assert (Hnoop : forall st st' u, txn st = None ->
                    rollback st = (u, st') ->
                    txn st' = None /\ current st' = current st).
  { intros st st' u Hst Est.
    pose proof (rollback_idle st Hst) as Hrb.
    now rewrite Est in Hrb. }
  unfold insert_recipe in E1.
  apply write_statement_spec in E1 as (Hf1 & _ & Hr).
  rewrite Hf0, Hc0, Ht0 in Hr.
  destruct Hr as [(msg & Hh & -> & Hc1 & Ht1) | [(msg & Hh & -> & Ht1 & Hc1)
                 | [(_ & (msg & Hv & _) & _) | (Hh & _ & -> & Hc1 & Ht1)]]];
    try discriminate Hv; rewrite Hh; cbn [fails orb].
  - unfold bind, ret.
    destruct (rollback s1) as [[] s2] eqn:E2.
    intros [= <- <-].
    destruct (Hback s1 s2 tt Ht1 E2) as [Ht2 Hc2].
    split; trivial. left. repeat split; trivial.
  - unfold bind, ret.
    destruct (rollback s1) as [[] s2] eqn:E2.
    intros [= <- <-].
    destruct (Hnoop s1 s2 tt Ht1 E2) as [Ht2 Hc2].
    split; trivial. left. repeat split; trivial. congruence.
  - cbn [fst snd] in Hc1 |- *.
    rewrite <- Hnext.
    assert (Hst1 : stored (next_id (recipes (current s))) (current s1) = true).
    { apply stored_iff. rewrite Hc1. cbn [recipes]. eexists. split.
      - apply in_app_iff. right. now left.
      - reflexivity. }
    unfold bind at 1.
    destruct (run_materials _ mats s1) as [e s2] eqn:E2.
    unfold bind at 1.
    destruct (finalize_materials e s2) as [flag s3] eqn:E3.
    destruct (write_materials_spec _ _ _ _ _ _ _ _ Ht1 Hst1 E2 E3)
      as (Hflag & Hcase).
    rewrite <- Hflag. unfold bind, ret.
    destruct Hcase as [(Ha & Ht3 & Hr3 & Hm3) | (Ha & Ht3 & Hr3 & extra & Hm3 & _ & Hno)].
    + destruct flag.
      * destruct (rollback s3) as [[] s4] eqn:E4.
        intros [= <- <-].
        destruct (Hback s3 s4 tt Ht3 E4) as [Ht4 Hc4].
        split; trivial. left. repeat split; trivial.
      * destruct (commit s3) as [[] s4] eqn:E4.
        intros [= <- <-].
        pose proof (commit_spec s3) as Hcm.
        rewrite E4 in Hcm. cbn [snd] in Hcm.
        destruct Hcm as (Ht4 & Hc4 & _).
        split; trivial. right. repeat split; trivial.
        rewrite Hc4.
        destruct (current s3) as [rs ms]. cbn [recipes recipe_materials] in *.
        rewrite Hr3, Hm3, Hc1. cbn [recipes recipe_materials].
        rewrite inserted_all; [reflexivity |].
        symmetry in Hflag. rewrite failing_snoc in Hflag.
        apply orb_false_iff in Hflag as [Hflag _].
        exact Hflag.
    + assert (Hflag' : flag = true).
      { rewrite Hflag, failing_snoc. apply aborting_failing in Ha.
        now rewrite Ha. }
      destruct flag; [| discriminate Hflag'].
      destruct (rollback s3) as [[] s4] eqn:E4.
      intros [= <- <-].
      destruct (Hnoop s3 s4 tt Ht3 E4) as [Ht4 Hc4].
      split; trivial. left. repeat split; trivial.
      rewrite Hc4. apply tables_eta; trivial.
      rewrite Hm3, (Hno (next_id_not_stored (current s))).
      apply app_nil_r.
Qed.

(** The outcomes of an update whose id parses and whose body passes
    validation: 500 when one of its statements is made to fail; 404 with
    the tables as they were when no recipe has the id; otherwise 200 with
    the recipe row rewritten and its materials replaced.  After a 500 the
    tables are as they were, unless a material insert has failed in the way
    that rolls the transaction back: the inserts queued after it have then
    run in autocommit mode, and the tables are as they were plus the
    material rows of those inserts that went through. *)
Lemma update_recipe_outcome (id_param : string) (i : Z) (body : request_body)
    (s : state) (resp : response) (s' : state) :
  parseInt id_param = Some i ->
  accepted body = true -> txn s = None ->
  update_recipe id_param body s = (resp, s') ->
  txn s' = None
  /\ ((failing (steps_update body) s = true /\ status resp = 500
       /\ (current s' = current s
           \/ (aborting (steps_update body) s = true
               /\ stored i (current s) = true
               /\ recipes (current s') = recipes (current s)
               /\ exists extra : list material_row,
                    recipe_materials (current s')
                    = (recipe_materials (current s) ++ extra)%list
                    /\ forall m, In m extra ->
                         In m (map (material_row_of i)
                                 (elements (lookup "materials" body)))))
       /\ (fails (hd None (faults s)) = true \/ stored i (current s) = true))
      \/ (fails (hd None (faults s)) = false
          /\ stored i (current s) = false /\ status resp = 404
          /\ current s' = current s)
      \/ (failing (steps_update body) s = false
          /\ stored i (current s) = true
          /\ resp = Response 200
                      (MessageId "Receita atualizada com sucesso!" i)
          /\ current s'
             = Tables
                 (updated_recipes i body (recipes (current s)))
                 (without_materials i (recipe_materials (current s))
                    ++ map (material_row_of i)
                         (elements (lookup "materials" body))))).
Proof.
  intros Hid Hacc Hidle. apply accepted_inv in Hacc as [Hmiss Hsome].
  unfold update_recipe. fold (missing_field body).
  rewrite Hid, Hmiss, Hsome.
  unfold steps_update.
  set (mats := elements (lookup "materials" body)).
  change (3 + List.length mats)%nat with (S (S (S (List.length mats)))).
  rewrite failing_S, aborting_S.
  unfold bind at 1.
  destruct (begin_transaction s) as [[] s0] eqn:E0.
  pose proof (begin_spec s Hidle) as (Ht0 & Hc0 & Hf0).
  rewrite E0 in Ht0, Hc0, Hf0. cbn [snd] in Ht0, Hc0, Hf0.
  unfold bind at 1.
  destruct (update_recipe_row _ _ _ i s0) as [r s1] eqn:E1.
  assert (Hnext : failing (S (S (List.length mats))) s1
                  = failing (S (S (List.length mats))) (snd (next_fault s))
                  /\ aborting (S (S (List.length mats))) s1
                     = aborting (S (S (List.length mats)))
                         (snd (next_fault s))).
  { replace s1 with (snd (update_recipe_row (lookup "name" body)
                            (lookup "quantity_produced" body)
                            (or_else (lookup "npc_sell_price" body)
                               (Some (JNum 0))) i s0)) by now rewrite E1.
    unfold update_recipe_row.
    rewrite (proj1 (write_statement_next _ _ _ _ _)).
    rewrite (proj2 (write_statement_next _ _ _ _ _)).
    unfold failing, aborting, next_fault. simpl. now rewrite Hf0. }
  destruct Hnext as [Hnext Hnexta].
  unfold update_recipe_row in E1.
  apply write_statement_spec in E1 as (Hf1 & _ & Hr).
  rewrite Hf0, Hc0, Ht0 in Hr.
  assert (Hback : forall st st' u, txn st = Some (current s) ->
                    rollback st = (u, st') ->
                    txn st' = None /\ current st' = current s).
  { intros st st' u Hst Est.
    pose proof (rollback_spec st (current s) Hst) as Hrb.
    rewrite Est in Hrb. cbn [snd] in Hrb. tauto. }
  assert (Hnoop : forall st st' u, txn st = None ->
                    rollback st = (u, st') ->
                    txn st' = None /\ current st' = current st).
  { intros st st' u Hst Est.
    pose proof (rollback_idle st Hst) as Hrb.
    now rewrite Est in Hrb. }
  destruct Hr as [(msg & Hh & -> & Hc1 & Ht1) | [(msg & Hh & -> & Ht1 & Hc1)
                 | [(_ & (msg & Hv & _) & _) | (Hh & _ & -> & Hc1 & Ht1)]]];
    try discriminate Hv; rewrite Hh; cbn [fails aborts orb].
  - unfold bind, ret.
    destruct (rollback s1) as [[] s2] eqn:E2.
    intros [= <- <-].
    destruct (Hback s1 s2 tt Ht1 E2) as [Ht2 Hc2].
    split; trivial. left. repeat split; trivial; now left.
  - unfold bind, ret.
    destruct (rollback s1) as [[] s2] eqn:E2.
    intros [= <- <-].
    destruct (Hnoop s1 s2 tt Ht1 E2) as [Ht2 Hc2].
    split; trivial. left. repeat split; trivial; left; congruence.
  - cbn [fst snd] in Hc1 |- *.
    destruct (List.length (filter (fun r => id r =? i) (recipes (current s))))
      as [| changes] eqn:Hchanges.
    + unfold bind, ret.
      destruct (rollback s1) as [[] s2] eqn:E2.
      intros [= <- <-].
      destruct (Hback s1 s2 tt Ht1 E2) as [Ht2 Hc2].
      split; trivial. right. left. repeat split; trivial.
      now apply changes_zero in Hchanges.
    + assert (Hstored : stored i (current s) = true).
      { unfold stored.
        destruct (existsb (fun r => id r =? i) (recipes (current s))) eqn:Hex;
          trivial.
        apply changes_zero in Hex. congruence. }
      rewrite <- Hnext, <- Hnexta. rewrite failing_S, aborting_S.
      unfold bind at 1.
      destruct (delete_materials i s1) as [d s2] eqn:E2.
      assert (Hnext2 : failing (S (List.length mats)) s2
                       = failing (S (List.length mats)) (snd (next_fault s1))
                       /\ aborting (S (List.length mats)) s2
                          = aborting (S (List.length mats))
                              (snd (next_fault s1))).
      { replace s2 with (snd (delete_materials i s1)) by now rewrite E2.
        unfold delete_materials. apply write_statement_next. }
      destruct Hnext2 as [Hnext2 Hnext2a].
      unfold delete_materials in E2.
      apply write_statement_spec in E2 as (Hf2 & _ & Hd).
      rewrite Ht1 in Hd.
      destruct Hd as [(msg & Hh2 & -> & Hc2 & Ht2) | [(msg & Hh2 & -> & Ht2 & Hc2)
                     | [(_ & (msg & Hv & _) & _) | (Hh2 & _ & -> & Hc2 & Ht2)]]];
        try discriminate Hv; rewrite Hh2; cbn [fails aborts orb].
      * unfold bind, ret.
        destruct (rollback s2) as [[] s3] eqn:E3.
        intros [= <- <-].
        destruct (Hback s2 s3 tt Ht2 E3) as [Ht3 Hc3].
        split; trivial. left. repeat split; trivial; [now left | now right].
      * unfold bind, ret.
        destruct (rollback s2) as [[] s3] eqn:E3.
        intros [= <- <-].
        destruct (Hnoop s2 s3 tt Ht2 E3) as [Ht3 Hc3].
        split; trivial. left.
        repeat split; trivial; [left; congruence | now right].
      * cbn [fst snd] in Hc2. rewrite <- Hnext2, <- Hnext2a.
        assert (Hst2 : stored i (current s2) = true).
        { rewrite Hc2, Hc1. cbn [recipes recipe_materials fst snd].
          etransitivity; [| exact Hstored].
          exact (updated_recipes_stored i i body (recipes (current s))
                   (recipe_materials (current s)) _). }
        unfold bind at 1.
        destruct (run_materials _ mats s2) as [e s3] eqn:E3.
        unfold bind at 1.
        destruct (finalize_materials e s3) as [flag s4] eqn:E4.
        destruct (write_materials_spec _ _ _ _ _ _ _ _ Ht2 Hst2 E3 E4)
          as (Hflag & Hcase).
        rewrite <- Hflag. unfold bind, ret.
        destruct Hcase as [(Ha & Ht4 & Hr4 & Hm4) | (Ha & Ht4 & Hr4 & extra & Hm4 & Hin & _)].
        -- destruct flag.
           ++ destruct (rollback s4) as [[] s5] eqn:E5.
              intros [= <- <-].
              destruct (Hback s4 s5 tt Ht4 E5) as [Ht5 Hc5].
              split; trivial. left.
              repeat split; trivial; [now left | now right].
           ++ destruct (commit s4) as [[] s5] eqn:E5.
              intros [= <- <-].
              pose proof (commit_spec s4) as Hcm.
              rewrite E5 in Hcm. cbn [snd] in Hcm.
              destruct Hcm as (Ht5 & Hc5 & _).
              split; trivial. right. right. repeat split; trivial.
              rewrite Hc5.
              destruct (current s4) as [rs ms].
              cbn [recipes recipe_materials] in *.
              rewrite Hr4, Hm4, Hc2, Hc1. cbn [recipes recipe_materials].
              rewrite inserted_all; [reflexivity |].
              symmetry in Hflag. rewrite failing_snoc in Hflag.
              apply orb_false_iff in Hflag as [Hflag _].
              exact Hflag.
        -- assert (Hflag' : flag = true).
           { rewrite Hflag, failing_snoc. apply aborting_failing in Ha.
             now rewrite Ha. }
           destruct flag; [| discriminate Hflag'].
           destruct (rollback s4) as [[] s5] eqn:E5.
           intros [= <- <-].
           destruct (Hnoop s4 s5 tt Ht4 E5) as [Ht5 Hc5].
           split; trivial. left.
           assert (Ha' : aborting (S (List.length mats)) s2 = true).
           { rewrite aborting_S_le. - reflexivity. - exact Ha. }
           rewrite Ha'.
           repeat split; trivial; [| now right].
           right. rewrite Hc5. repeat split; trivial.
           exists extra. now split.
Qed.

(* ===================================================================== *)
(** ** The reads *)
(* ===================================================================== *)

(** The answer of the recipe read in terms of the tables and of the
    failures injected into its two queries; the tables and the transaction
    are left alone. *)
Lemma get_recipe_by_id_spec (i : Z) (s : state) :
  fst (get_recipe_by_id i s)
  = (if fails (hd None (faults s))
     then Response 500 (Error "Erro interno do servidor ao buscar receita.")
     else
       match find (fun r => id r =? i) (recipes (current s)) with
       | None => Response 404 (Error "Item não encontrado.")
       | Some row =>
           if fails (hd None (tl (faults s)))
           then Response 500
                  (Error "Erro interno do servidor ao buscar materiais da receita.")
           else Response 200
                  (Recipe (FullRecipe (id row) (column (name row))
                             (column (quantity_produced row))
                             (column (npc_sell_price row))
                             (map material_of_row
                                (filter (fun m => recipe_id m =? i)
                                   (recipe_materials (current s))))))
       end)
  /\ current (snd (get_recipe_by_id i s)) = current s
  /\ txn (snd (get_recipe_by_id i s)) = txn s.
Proof.
  destruct s as [t tx fs l].
  unfold get_recipe_by_id, bind, select_recipe, select_materials, statement,
    next_fault, issue, set_tables, ret.
  cbn [faults current txn log fst snd].
  destruct fs as [| [msg |] fs]; cbn [hd tl fails fst snd];
    try (repeat split; fail);
    (destruct (find (fun r => id r =? i) (recipes t)) as [row |];
     cbn [faults current txn log fst snd hd tl]; [| repeat split]).
  - repeat split.
  - destruct fs as [| [msg |] fs]; cbn [hd tl fails fst snd]; repeat split.
Qed.

(** The answer of a read depends on the tables and on the injected
    failures only. *)
Lemma get_recipe_same (id_param : string) (s1 s2 : state) :
  current s1 = current s2 -> faults s1 = faults s2 ->
  fst (get_recipe id_param s1) = fst (get_recipe id_param s2).
Proof.
  intros Hc Hf. unfold get_recipe.
  destruct (parseInt id_param) as [i |]; trivial.
  rewrite (proj1 (get_recipe_by_id_spec i s1)).
  rewrite (proj1 (get_recipe_by_id_spec i s2)).
  now rewrite Hc, Hf.
Qed.

Lemma list_recipes_spec (s : state) :
  fst (list_recipes s)
  = (if fails (hd None (faults s))
     then Response 500
            (Error "Erro interno do servidor ao buscar itens (verifique schema do DB).")
     else Response 200
            (Items (map (fun r => Item (id r) (column (name r))
                                    (column (npc_sell_price r)))
                      (order_by_name (recipes (current s))))))
  /\ current (snd (list_recipes s)) = current s
  /\ txn (snd (list_recipes s)) = txn s.
Proof.
  destruct s as [t tx fs l].
  unfold list_recipes, bind, select_items, statement, next_fault, issue,
    set_tables, ret.
  cbn [faults current txn log fst snd].
  destruct fs as [| [msg |] fs]; cbn [hd tl fails fst snd current txn];
    repeat split; now rewrite map_map.
Qed.

Lemma get_price_by_name_spec (n : string) (s : state) :
  current (snd (get_price_by_name n s)) = current s
  /\ txn (snd (get_price_by_name n s)) = txn s.
Proof.
  destruct s as [t tx fs l].
  unfold get_price_by_name, bind, select_price, statement, next_fault, issue,
    set_tables, ret.
  cbn [faults current txn log fst snd].
  destruct fs as [| [msg |] fs]; cbn [hd tl fst snd];
    try (split; reflexivity);
    destruct (find _ (recipes t)); split; reflexivity.
Qed.

(* ===================================================================== *)
(** ** The order of the list answer *)
(* ===================================================================== *)

Lemma ascii_compare_eq (a b : ascii) : Ascii.compare a b = Eq -> a = b.
Proof. apply Ascii.compare_eq_iff. Qed.

Lemma string_compare_refl (s : string) : String.compare s s = Eq.
Proof.
  induction s as [| a s IH]; simpl; trivial.
  unfold Ascii.compare. now rewrite N.compare_refl.
Qed.

Lemma string_leb_trans (s1 : string) :
  forall s2 s3 : string,
    (s1 <=? s2)%string = true -> (s2 <=? s3)%string = true ->
    (s1 <=? s3)%string = true.
Proof.
  unfold String.leb.
  induction s1 as [| a s1 IH]; intros [| b s2] [| c s3]; simpl; trivial;
    try discriminate.
  destruct (Ascii.compare a b) eqn:Eab; try discriminate.
  - apply ascii_compare_eq in Eab as ->.
    destruct (Ascii.compare b c); trivial. apply IH.
  - destruct (Ascii.compare b c) eqn:Ebc; try discriminate.
    + apply ascii_compare_eq in Ebc as ->. now rewrite Eab.
    + intros _ _. unfold Ascii.compare in *.
      rewrite N.compare_lt_iff in Eab, Ebc.
      assert (H : (N_of_ascii a < N_of_ascii c)%N) by lia.
      apply N.compare_lt_iff in H. now rewrite H.
Qed.

Lemma sql_leb_total (a b : sqlval) : sql_leb a b = false -> sql_leb b a = true.
Proof.
  destruct a, b; simpl; trivial; try discriminate.
  - intros H. apply Z.leb_gt in H. apply Z.leb_le. lia.
  - intros H. destruct (String.leb_total s s0) as [H' | H']; congruence.
Qed.

Lemma sql_leb_trans (a b c : sqlval) :
  sql_leb a b = true -> sql_leb b c = true -> sql_leb a c = true.
Proof.
  destruct a, b, c; simpl; trivial; try discriminate.
  - rewrite !Z.leb_le. lia.
  - apply string_leb_trans.
Qed.

Lemma insert_by_name_perm (r : recipe_row) (l : list recipe_row) :
  Permutation (insert_by_name r l) (r :: l).
Proof.
  induction l as [| r' l IH]; simpl; trivial.
  destruct (sql_leb (name r) (name r')); trivial.
  rewrite IH. apply perm_swap.
Qed.

Lemma order_by_name_perm (l : list recipe_row) :
  Permutation (order_by_name l) l.
Proof.
  induction l as [| r l IH]; simpl; trivial.
  rewrite insert_by_name_perm. now constructor.
Qed.

Lemma insert_by_name_sorted (r : recipe_row) (l : list recipe_row) :
  StronglySorted name_le l -> StronglySorted name_le (insert_by_name r l).
Proof.
  induction 1 as [| r' l Hl IH Hall]; simpl.
  - repeat constructor.
  - destruct (sql_leb (name r) (name r')) eqn:E.
    + constructor; [now constructor |].
      constructor; trivial.
      eapply Forall_impl; [| exact Hall].
      intros x Hx. unfold name_le in *. eapply sql_leb_trans; eauto.
    + constructor; trivial.
      apply sql_leb_total in E.
      eapply Permutation_Forall; [symmetry; apply insert_by_name_perm |].
      now constructor.
Qed.

Lemma order_by_name_sorted (l : list recipe_row) :
  StronglySorted name_le (order_by_name l).
Proof.
  induction l as [| r l IH]; simpl; [constructor |].
  now apply insert_by_name_sorted.
Qed.

(* ===================================================================== *)
(** ** Materials reference recipes *)
(* ===================================================================== *)


Lemma references_ok_iff (t : tables) :
  references_ok t = true
  <-> forall m, In m (recipe_materials t) -> stored (recipe_id m) t = true.
Proof. unfold references_ok. apply forallb_forall. Qed.


Lemma material_row_of_id (rid : Z) (mat : json) :
  recipe_id (material_row_of rid mat) = rid.
Proof. reflexivity. Qed.

Lemma references_after_create (t : tables) (i : Z) (row : recipe_row)
    (mats : list json) :
  id row = i -> references_ok t = true ->
  references_ok
    (Tables (recipes t ++ [row])
       (recipe_materials t ++ map (material_row_of i) mats)) = true.
Proof.
  intros Hi H. rewrite references_ok_iff in *. cbn [recipe_materials].
  intros m Hm. apply stored_iff. cbn [recipes].
  apply in_app_iff in Hm as [Hm | Hm].
  - apply H, stored_iff in Hm as (r & Hr & Hid).
    exists r. split; trivial. apply in_app_iff. now left.
  - apply in_map_iff in Hm as (mat & <- & _).
    exists row. split; [apply in_app_iff; right; now left | trivial].
Qed.


Lemma references_after_update (t : tables) (i : Z) (body : request_body)
    (mats : list json) :
  stored i t = true -> references_ok t = true ->
  references_ok
    (Tables (updated_recipes i body (recipes t))
       (without_materials i (recipe_materials t)
          ++ map (material_row_of i) mats)) = true.
Proof.
  intros Hi H. rewrite references_ok_iff in *. cbn [recipe_materials].
  intros m Hm.
  rewrite (updated_recipes_stored i _ body _ (recipe_materials t)).
  destruct t as [rs ms]. cbn [recipes recipe_materials] in *.
  apply in_app_iff in Hm as [Hm | Hm].
  - apply filter_In in Hm as [Hm _]. now apply H.
  - apply in_map_iff in Hm as (mat & <- & _). exact Hi.
Qed.

Lemma references_after_delete (t : tables) (i : Z) :
  references_ok t = true ->
  references_ok
    (Tables (filter (fun r => negb (id r =? i)) (recipes t))
       (without_materials i (recipe_materials t))) = true.
Proof.
  intros H. rewrite references_ok_iff in *. cbn [recipe_materials].
  intros m Hm. apply filter_In in Hm as [Hm Hne].
  apply H, stored_iff in Hm as (r & Hr & Hid).
  apply stored_iff. exists r. split; trivial. cbn [recipes].
  apply filter_In. split; trivial. now rewrite Hid.
Qed.

Lemma references_after_partial (t t' : tables) (i : Z) (mats : list json)
    (extra : list material_row) :
  stored i t = true -> recipes t' = recipes t ->
  recipe_materials t' = (recipe_materials t ++ extra)%list ->
  (forall m, In m extra -> In m (map (material_row_of i) mats)) ->
  references_ok t = true -> references_ok t' = true.
Proof.
  intros Hi Hrs Hms Hin H. rewrite references_ok_iff in *.
  assert (Hsame : forall j, stored j t' = stored j t).
  { intros j. unfold stored. now rewrite Hrs. }
  intros m Hm. rewrite Hsame. rewrite Hms in Hm.
  apply in_app_iff in Hm as [Hm | Hm]; [now apply H |].
  apply Hin, in_map_iff in Hm as (mat & <- & _). exact Hi.
Qed.

(** The outcomes of a delete whose id parses: 500 or 404 with the tables
    as they were, or 200 with the recipe and, by the cascade, its materials
    removed. *)
Lemma delete_recipe_outcome (id_param : string) (i : Z) (s : state) :
  parseInt id_param = Some i ->
  txn (snd (delete_recipe id_param s)) = txn s
  /\ ((status (fst (delete_recipe id_param s)) = 500
       /\ fails (hd None (faults s)) = true
       /\ current (snd (delete_recipe id_param s)) = current s)
      \/ (status (fst (delete_recipe id_param s)) = 404
          /\ stored i (current s) = false
          /\ current (snd (delete_recipe id_param s)) = current s)
      \/ (status (fst (delete_recipe id_param s)) = 200
          /\ fails (hd None (faults s)) = false
          /\ stored i (current s) = true
          /\ current (snd (delete_recipe id_param s))
             = Tables (filter (fun r => negb (id r =? i))
                         (recipes (current s)))
                      (without_materials i (recipe_materials (current s))))).
Proof.
  intros Hid. unfold delete_recipe. rewrite Hid. unfold bind.
  destruct (delete_recipe_row i s) as [r s1] eqn:E.
  unfold delete_recipe_row in E.
  apply statement_spec in E as (Ht & _ & _ & Hr).
  destruct Hr as [(msg & Hh & -> & Hc) | (Hh & -> & Hc)]; cbn [fst snd] in *.
  - unfold ret; cbn [fst snd status]. split; trivial. left.
    rewrite Hh. repeat split; trivial.
  - unfold stored.
    destruct (filter (fun r => id r =? i) (recipes (current s)))
      as [| r0 hit] eqn:Hhit; cbn [List.length fst snd status] in *;
      unfold ret; cbn [fst snd status]; split; trivial; right.
    + left. repeat split; trivial.
      apply changes_zero. now rewrite Hhit.
    + right. rewrite Hh. repeat split; trivial.
      destruct (existsb _ _) eqn:Hex; trivial.
      apply changes_zero in Hex. rewrite Hhit in Hex. discriminate.
Qed.

Lemma accepted_or_not (body : request_body) :
  accepted body = true \/ accepted body = false.
Proof. destruct (accepted body); tauto. Qed.

(** Every request leaves the connection without an open transaction and
    keeps every material row attached to a stored recipe. *)
Lemma handle_preserves (r : request) (s : state) :
  txn s = None -> references_ok (current s) = true ->
  txn (snd (handle r s)) = None
  /\ references_ok (current (snd (handle r s))) = true.
Proof.
  intros Hidle Hrefs. destruct r as [| idp | n | body | idp body | idp];
    cbn [handle].
  - destruct (list_recipes_spec s) as (_ & -> & ->). now split.
  - unfold get_recipe. destruct (parseInt idp) as [i |]; [| now split].
    destruct (get_recipe_by_id_spec i s) as (_ & -> & ->). now split.
  - destruct (get_price_by_name_spec n s) as (-> & ->). now split.
  - destruct (accepted_or_not body) as [Hacc | Hacc].
    + destruct (create_recipe body s) as [resp s'] eqn:E.
      apply create_recipe_outcome in E as (Ht & Hc); trivial.
      cbn [snd]. split; trivial.
      destruct Hc as [(_ & _ & ->) | (_ & _ & ->)]; trivial.
      now apply references_after_create.
    + destruct (create_recipe_rejected body s Hacc) as [-> _]. now split.
  - destruct (parseInt idp) as [i |] eqn:Hid.
    + destruct (accepted_or_not body) as [Hacc | Hacc].
      * destruct (update_recipe idp body s) as [resp s'] eqn:E.
        eapply update_recipe_outcome in E as (Ht & Hc); eauto.
        cbn [snd]. split; trivial.
        destruct Hc as [(_ & _ & [-> | Hpart] & _)
                       | [(_ & _ & _ & ->) | (_ & Hst & _ & ->)]]; trivial.
        -- destruct Hpart as (_ & Hst & Hrs & extra & Hms & Hin).
           eapply references_after_partial; eauto.
        -- now apply references_after_update.
      * destruct (update_recipe_rejected idp body s Hacc) as [-> _].
        now split.
    + unfold update_recipe. rewrite Hid. now split.
  - destruct (parseInt idp) as [i |] eqn:Hid.
    + destruct (delete_recipe_outcome idp i s Hid) as (Ht & Hc).
      split; [congruence |].
      destruct Hc as [(_ & _ & ->) | [(_ & _ & ->) | (_ & _ & _ & ->)]];
        trivial.
      now apply references_after_delete.
    + unfold delete_recipe. rewrite Hid. now split.
Qed.

Lemma reachable_invariant (s : state) :
  reachable s -> txn s = None /\ references_ok (current s) = true.
Proof.
  induction 1 as [| s fs r _ [Hidle Hrefs]]; [now split |].
  now apply handle_preserves.
Qed.

(* ===================================================================== *)
(** ** Reading back what was written *)
(* ===================================================================== *)

Lemma failing_2 (s : state) :
  failing 2 s = false ->
  fails (hd None (faults s)) = false
  /\ fails (hd None (tl (faults s))) = false.
Proof.
  unfold failing. destruct (faults s) as [| f [| g fs]]; simpl.
  - now split.
  - rewrite orb_false_r. now split.
  - intros H. apply orb_false_iff in H as [H1 H2].
    apply orb_false_iff in H2 as [H2 _]. now split.
Qed.

Lemma find_fresh (i : Z) (rows : list recipe_row) (row : recipe_row) :
  stored i (Tables rows []) = false -> id row = i ->
  find (fun r => id r =? i) (rows ++ [row]) = Some row.
Proof.
  unfold stored. cbn [recipes]. intros H Hi.
  induction rows as [| r rows IH]; simpl in *.
  - now rewrite Hi, Z.eqb_refl.
  - apply orb_false_iff in H as [-> H]. now apply IH.
Qed.

Lemma find_updated (i : Z) (body : request_body) (rows : list recipe_row) :
  stored i (Tables rows []) = true ->
  find (fun r => id r =? i) (updated_recipes i body rows)
  = Some (recipe_row_of i body).
Proof.
  unfold stored, updated_recipes. cbn [recipes].
  induction rows as [| r rows IH]; simpl; [discriminate |].
  destruct (id r =? i) eqn:E; simpl.
  - intros _. rewrite E. apply Z.eqb_eq in E. now rewrite E.
  - rewrite E. exact IH.
Qed.

Lemma filter_new_materials (i : Z) (old : list material_row)
    (mats : list json) :
  (forall m, In m old -> recipe_id m <> i) ->
  filter (fun m => recipe_id m =? i) (old ++ map (material_row_of i) mats)
  = map (material_row_of i) mats.
Proof.
  intros H. rewrite filter_app.
  replace (filter (fun m => recipe_id m =? i) old) with (@nil material_row).
  - simpl. induction mats as [| mat mats IH]; simpl; trivial.
    now rewrite Z.eqb_refl, IH.
  - symmetry. induction old as [| m old IH]; simpl; trivial.
    destruct (recipe_id m =? i) eqn:E.
    + apply Z.eqb_eq in E. exfalso. apply (H m); [now left | trivial].
    + apply IH. intros m' Hm'. apply H. now right.
Qed.

Lemma without_materials_id (i : Z) (rows : list material_row)
    (m : material_row) :
  In m (without_materials i rows) -> recipe_id m <> i.
Proof.
  unfold without_materials. intros H. apply filter_In in H as [_ H].
  apply negb_true_iff, Z.eqb_neq in H. exact H.
Qed.

(** A create that meets no failure answers 201 with the next id, and a
    read of that id on the resulting tables, itself without failure,
    answers the row and the material rows the create wrote. *)
Lemma read_after_create (body : request_body) (s : state) :
  accepted body = true -> txn s = None ->
  references_ok (current s) = true ->
  failing (steps_create body) s = false ->
  fst (create_recipe body s)
  = Response 201
      (MessageId "Receita criada com sucesso!" (next_id (recipes (current s))))
  /\ forall (id_param : string) (s2 : state),
       parseInt id_param = Some (next_id (recipes (current s))) ->
       current s2 = current (snd (create_recipe body s)) ->
       failing 2 s2 = false ->
       fst (get_recipe id_param s2)
       = Response 200
           (Recipe
              (FullRecipe (next_id (recipes (current s)))
                 (column (bind_param (lookup "name" body)))
                 (column (bind_param (lookup "quantity_produced" body)))
                 (column (bind_param (or_else (lookup "npc_sell_price" body)
                                        (Some (JNum 0)))))
                 (map (fun mat =>
                         material_of_row
                           (material_row_of (next_id (recipes (current s)))
                              mat))
                    (elements (lookup "materials" body))))).
Proof.
  intros Hacc Hidle Hrefs Hok.
  destruct (create_recipe body s) as [resp s'] eqn:E.
  apply create_recipe_outcome in E as (_ & Hc); trivial.
  destruct Hc as [(Hf & _) | (_ & -> & Hc)]; [congruence |].
  cbn [fst snd]. split; trivial.
  intros idp s2 Hid Hs2 Hok2.
  apply failing_2 in Hok2 as [H1 H2].
  unfold get_recipe. rewrite Hid.
  rewrite (proj1 (get_recipe_by_id_spec _ s2)), H1, H2, Hs2, Hc.
  cbn [recipes recipe_materials].
  rewrite find_fresh; trivial.
  - cbn [id name quantity_produced npc_sell_price recipe_row_of].
    rewrite filter_new_materials, map_map; trivial.
    intros m Hm Heq.
    rewrite references_ok_iff in Hrefs. apply Hrefs in Hm.
    rewrite Heq, next_id_not_stored in Hm. discriminate.
  - pose proof (next_id_not_stored (current s)) as H.
    unfold stored in *. exact H.
Qed.

(** The same for an update of a stored recipe. *)
Lemma read_after_update (id_param : string) (i : Z) (body : request_body)
    (s : state) :
  parseInt id_param = Some i ->
  accepted body = true -> txn s = None ->
  stored i (current s) = true ->
  failing (steps_update body) s = false ->
  fst (update_recipe id_param body s)
  = Response 200 (MessageId "Receita atualizada com sucesso!" i)
  /\ forall s2 : state,
       current s2 = current (snd (update_recipe id_param body s)) ->
       failing 2 s2 = false ->
       fst (get_recipe id_param s2)
       = Response 200
           (Recipe
              (FullRecipe i
                 (column (bind_param (lookup "name" body)))
                 (column (bind_param (lookup "quantity_produced" body)))
                 (column (bind_param (or_else (lookup "npc_sell_price" body)
                                        (Some (JNum 0)))))
                 (map (fun mat => material_of_row (material_row_of i mat))
                    (elements (lookup "materials" body))))).
Proof.
  intros Hid Hacc Hidle Hst Hok.
  destruct (update_recipe id_param body s) as [resp s'] eqn:E.
  eapply update_recipe_outcome in E as (_ & Hc); eauto.
  destruct Hc as [(Hf & _) | [(_ & Hn & _) | (_ & _ & -> & Hc)]];
    try congruence.
  cbn [fst snd]. split; trivial.
  intros s2 Hs2 Hok2.
  apply failing_2 in Hok2 as [H1 H2].
  unfold get_recipe. rewrite Hid.
  rewrite (proj1 (get_recipe_by_id_spec _ s2)), H1, H2, Hs2, Hc.
  cbn [recipes recipe_materials].
  rewrite find_updated; [| exact Hst].
  cbn [id name quantity_produced npc_sell_price recipe_row_of].
  rewrite filter_new_materials, map_map; trivial.
  apply without_materials_id.
Qed.

Lemma is_text_truthy (v : value) : is_text v = true -> truthy v = true.
Proof. destruct v as [[| | | | |] |]; simpl; trivial; discriminate. Qed.

Lemma is_positive_truthy (v : value) : is_positive v = true -> truthy v = true.
Proof.
  destruct v as [[| | z | | |] |]; simpl; try discriminate.
  intros H. apply Z.ltb_lt in H. apply negb_true_iff, Z.eqb_neq. lia.
Qed.

Lemma column_bind_text (v : value) :
  is_text v = true -> column (bind_param v) = the v.
Proof. destruct v as [[| | | | |] |]; simpl; trivial; discriminate. Qed.

Lemma column_bind_number (v : value) :
  is_number v = true -> column (bind_param v) = the v.
Proof. destruct v as [[| | | | |] |]; simpl; trivial; discriminate. Qed.

Lemma is_positive_number (v : value) : is_positive v = true -> is_number v = true.
Proof. destruct v as [[| | | | |] |]; simpl; trivial; discriminate. Qed.

Lemma column_bind_price (v : value) :
  is_number v = true ->
  column (bind_param (or_else v (Some (JNum 0)))) = the v.
Proof.
  destruct v as [[| | z | | |] |]; simpl; try discriminate. intros _.
  unfold or_else. simpl. destruct (z =? 0) eqn:E; simpl; trivial.
  apply Z.eqb_eq in E. now subst.
Qed.

Lemma valid_material_complete (mat : json) :
  valid_material mat = true -> entry_complete mat.
Proof.
  unfold valid_material, entry_complete. intros H.
  apply andb_true_iff in H as [H H4]. apply andb_true_iff in H as [H H3].
  apply andb_true_iff in H as [H1 H2].
  repeat split; auto using is_text_truthy, is_positive_truthy.
  intros ->. discriminate.
Qed.

Lemma valid_material_read_back (i : Z) (mat : json) :
  valid_material mat = true ->
  material_of_row (material_row_of i mat) = material_of_json mat.
Proof.
  unfold valid_material. intros H.
  apply andb_true_iff in H as [H H4]. apply andb_true_iff in H as [H H3].
  apply andb_true_iff in H as [H1 H2].
  unfold material_of_row, material_row_of, material_of_json.
  cbn [material_name quantity material_type default_npc_price].
  rewrite (column_bind_text _ H1), (column_bind_text _ H3).
  rewrite (column_bind_price _ H4).
  rewrite (column_bind_number _ (is_positive_number _ H2)).
  reflexivity.
Qed.

Lemma valid_recipe_accepted (body : request_body) :
  valid_recipe body = true -> accepted body = true.
Proof.
  unfold valid_recipe, accepted, missing_field, falsy. intros H.
  apply andb_true_iff in H as [H H5]. apply andb_true_iff in H as [H H4].
  apply andb_true_iff in H as [H H3]. apply andb_true_iff in H as [H1 H2].
  apply is_text_truthy in H1. apply is_positive_truthy in H2.
  rewrite H1, H2, H4.
  destruct (lookup "materials" body) as [[| | | | items |] |];
    try discriminate.
  cbn [truthy negb orb andb elements] in *.
  assert (Hs : some_invalid items = Normal false).
  { apply some_invalid_false. rewrite forallb_forall in H5.
    apply Forall_forall. intros mat Hm.
    now apply valid_material_complete, H5. }
  now rewrite Hs.
Qed.

(* ===================================================================== *)
(** ** Parsing the id *)
(* ===================================================================== *)

Lemma is_digit_cases (c : ascii) :
  is_digit c = true ->
  In c ["0"; "1"; "2"; "3"; "4"; "5"; "6"; "7"; "8"; "9"]%char.
Proof.
  destruct c as [[] [] [] [] [] [] [] []]; intros H;
    try discriminate H; simpl; tauto.
Qed.

Lemma read_digits_count (s : string) :
  forall (acc : Z) (count : nat),
    (count <= snd (read_digits acc count s))%nat.
Proof.
  induction s as [| c s IH]; intros acc count; cbn [read_digits].
  - cbn [snd]. lia.
  - destruct (is_digit c); cbn [snd]; [| lia].
    specialize (IH (10 * acc + digit_value c) (S count)). lia.
Qed.

Lemma skip_one_space_digit (c : ascii) (rest : string) :
  is_digit c = true -> skip_one_space (String c rest) = None.
Proof.
  intros H. pose proof (is_digit_cases c H) as Hc. simpl in Hc.
  repeat (destruct Hc as [<- | Hc]); try contradiction;
    destruct rest as [| c2 [| c3 rest]]; reflexivity.
Qed.

Lemma skip_one_space_shorter (s rest : string) :
  skip_one_space s = Some rest -> (String.length rest < String.length s)%nat.
Proof.
  unfold skip_one_space.
  destruct s as [| c [| c2 [| c3 r]]]; try discriminate;
    repeat match goal with
           | |- context [if ?b then _ else _] => destruct b
           end;
    intros [= <-]; cbn [String.length]; lia.
Qed.

(** The fuel given to [skip_spaces] by [parseInt] is enough: what is left
    does not start with white space. *)
Lemma skip_spaces_done (fuel : nat) :
  forall s : string,
    (String.length s <= fuel)%nat ->
    skip_one_space (skip_spaces fuel s) = None.
Proof.
  induction fuel as [| fuel IH]; intros s Hlen.
  - destruct s; [reflexivity | simpl in Hlen; lia].
  - cbn [skip_spaces]. destruct (skip_one_space s) as [rest |] eqn:E; trivial.
    apply IH. apply skip_one_space_shorter in E. lia.
Qed.

(** A string that starts with a digit is parsed to a number, whatever
    follows the digits. *)
Lemma parseInt_leading_digit (c : ascii) (rest : string) :
  is_digit c = true -> exists n, parseInt (String c rest) = Some n.
Proof.
  intros H. unfold parseInt. cbn [String.length skip_spaces].
  rewrite (skip_one_space_digit c rest H).
  assert (Hsign : match String c rest with
                  | String "-" r => (-1, r)
                  | String "+" r => (1, r)
                  | _ => (1, String c rest)
                  end = (1, String c rest)).
  { pose proof (is_digit_cases c H) as Hc. simpl in Hc.
    repeat (destruct Hc as [<- | Hc]); try contradiction; reflexivity. }
  rewrite Hsign. cbn [read_digits]. rewrite H.
  pose proof (read_digits_count rest (10 * 0 + digit_value c) 1) as Hn.
  destruct (read_digits (10 * 0 + digit_value c) 1 rest) as [n [| k]].
  - cbn [snd] in Hn. lia.
  - now exists (1 * n).
Qed.

Lemma numeric_string_parses (s : string) :
  numeric_string s = true -> exists n, parseInt s = Some n.
Proof.
  unfold numeric_string. destruct s as [| c rest]; [discriminate |].
  cbn [list_ascii_of_string forallb]. intros H.
  apply andb_true_iff in H as [_ H]. apply andb_true_iff in H as [H _].
  now apply parseInt_leading_digit.
Qed.

(* ===================================================================== *)
(** ** The decimal text of an id *)
(* ===================================================================== *)

Lemma read_digits_value_pos (d : Decimal.uint) :
  forall (acc : positive) (count : nat),
    fst (read_digits (Z.pos acc) count (NilEmpty.string_of_uint d))
    = Z.pos (Pos.of_uint_acc d acc).
Proof.
  induction d; intros acc count;
    cbn [NilEmpty.string_of_uint read_digits Pos.of_uint_acc];
    trivial;
    (replace (is_digit _) with true by reflexivity);
    match goal with
    | |- fst (read_digits ?a _ _) = Z.pos (Pos.of_uint_acc _ ?p) =>
        replace a with (Z.pos p)
          by (match goal with
              | |- context [digit_value ?c] =>
                  let v := eval vm_compute in (digit_value c) in
                  change (digit_value c) with v
              end; lia)
    end; apply IHd.
Qed.

Lemma read_digits_value (d : Decimal.uint) :
  forall count : nat,
    fst (read_digits 0 count (NilEmpty.string_of_uint d))
    = Z.of_N (Pos.of_uint d).
Proof.
  induction d; intros count;
    cbn [NilEmpty.string_of_uint read_digits Pos.of_uint]; trivial;
    (replace (is_digit _) with true by reflexivity);
    [ apply IHd | .. ];
    match goal with
    | |- fst (read_digits ?a _ _) = Z.of_N (N.pos (Pos.of_uint_acc _ ?p)) =>
        change a with (Z.pos p)
    end; apply read_digits_value_pos.
Qed.

Lemma parseInt_digits (d : Decimal.uint) :
  d <> Decimal.Nil ->
  parseInt (NilEmpty.string_of_uint d) = Some (Z.of_N (Pos.of_uint d))
  /\ parseInt (String "-" (NilEmpty.string_of_uint d))
     = Some (- Z.of_N (Pos.of_uint d)).
Proof.
  intros Hd.
  assert (Hs : exists c rest,
             NilEmpty.string_of_uint d = String c rest /\ is_digit c = true).
  { destruct d; try contradiction; cbn [NilEmpty.string_of_uint];
      eexists; eexists; split; reflexivity. }
  destruct Hs as (c & rest & Hs & Hc).
  pose proof (read_digits_value d 0) as Hv.
  pose proof (read_digits_count rest (10 * 0 + digit_value c) 1) as Hn.
  rewrite Hs in Hv |- *.
  assert (Hread : exists k, read_digits 0 0 (String c rest)
                            = (Z.of_N (Pos.of_uint d), S k)).
  { cbn [read_digits] in Hv |- *. rewrite Hc in Hv |- *.
    destruct (read_digits (10 * 0 + digit_value c) 1 rest) as [n [| k]].
    - cbn [snd] in Hn. lia.
    - exists k. cbn [fst] in Hv. now rewrite Hv. }
  destruct Hread as (k & Hread).
  split.
  - unfold parseInt. cbn [String.length skip_spaces].
    rewrite (skip_one_space_digit c rest Hc).
    assert (Hsign : match String c rest with
                    | String "-" r => (-1, r)
                    | String "+" r => (1, r)
                    | _ => (1, String c rest)
                    end = (1, String c rest)).
    { pose proof (is_digit_cases c Hc) as Hin. simpl in Hin.
      repeat (destruct Hin as [<- | Hin]); try contradiction; reflexivity. }
    rewrite Hsign, Hread. f_equal; lia.
  - unfold parseInt. cbn [String.length skip_spaces].
    assert (Hskip : skip_one_space (String "-" (String c rest)) = None).
    { destruct rest; reflexivity. }
    rewrite Hskip, Hread. f_equal; lia.
Qed.

(** The decimal text of an id is parsed back to the id. *)
Lemma parseInt_string_of_Z (z : Z) : parseInt (string_of_Z z) = Some z.
Proof.
  unfold string_of_Z. destruct z as [| p | p]; [reflexivity | |];
    cbn [Z.to_int NilZero.string_of_int];
    pose proof (Unsigned.to_uint_nonnil p) as Hnil;
    destruct (parseInt_digits (Pos.to_uint p) Hnil) as [Hpos Hneg];
    rewrite Unsigned.of_to in Hpos, Hneg;
    (replace (NilZero.string_of_uint (Pos.to_uint p))
       with (NilEmpty.string_of_uint (Pos.to_uint p))
       by (destruct (Pos.to_uint p); trivial; contradiction));
    assumption.
Qed.

(* ===================================================================== *)
(** ** Atomic writes *)
(* ===================================================================== *)

Lemma list_recipes_same (s1 s2 : state) :
  current s1 = current s2 -> faults s1 = faults s2 ->
  fst (list_recipes s1) = fst (list_recipes s2).
Proof.
  intros Hc Hf.
  rewrite (proj1 (list_recipes_spec s1)), (proj1 (list_recipes_spec s2)).
  now rewrite Hc, Hf.
Qed.

(** A create in which a statement is made to fail answers 500 and is
    undone, whichever way the statement fails: the tables are what they
    were before the request and no transaction stays open, so every later
    read answers what it would have answered before the request.  The same
    holds for the update of a stored recipe as long as no failure ends the
    transaction by itself. *)
Lemma failure_is_rolled_back (body : request_body) (s : state) :
  txn s = None -> accepted body = true ->
  (failing (steps_create body) s = true ->
   status (fst (create_recipe body s)) = 500
   /\ current (snd (create_recipe body s)) = current s
   /\ txn (snd (create_recipe body s)) = None
   /\ forall (id_param : string) (fs : list (option fault)),
        fst (get_recipe id_param (inject fs (snd (create_recipe body s))))
        = fst (get_recipe id_param (inject fs s))
        /\ fst (list_recipes (inject fs (snd (create_recipe body s))))
           = fst (list_recipes (inject fs s)))
  /\ (forall (id_param : string) (i : Z),
        parseInt id_param = Some i -> stored i (current s) = true ->
        failing (steps_update body) s = true ->
        aborting (steps_update body) s = false ->
        status (fst (update_recipe id_param body s)) = 500
        /\ current (snd (update_recipe id_param body s)) = current s
        /\ txn (snd (update_recipe id_param body s)) = None
        /\ forall (id_param' : string) (fs : list (option fault)),
             fst (get_recipe id_param'
                    (inject fs (snd (update_recipe id_param body s))))
             = fst (get_recipe id_param' (inject fs s))
             /\ fst (list_recipes
                       (inject fs (snd (update_recipe id_param body s))))
                = fst (list_recipes (inject fs s))).
Proof.
  intros Hidle Hacc. split.
  - intros Hfail.
    destruct (create_recipe body s) as [resp s'] eqn:E.
    apply create_recipe_outcome in E as (Ht & Hc); trivial.
    destruct Hc as [(_ & Hst & Hc) | (Hok & _)]; [| congruence].
    cbn [fst snd]. repeat split; trivial.
    + now apply get_recipe_same.
    + now apply list_recipes_same.
  - intros idp i Hid Hstored Hfail Hplain.
    destruct (update_recipe idp body s) as [resp s'] eqn:E.
    eapply update_recipe_outcome in E as (Ht & Hc); eauto.
    destruct Hc as [(_ & Hst & [Hc | (Ha & _)] & _)
                   | [(_ & Hn & _) | (Hok & _)]]; try congruence.
    cbn [fst snd]. repeat split; trivial.
    + now apply get_recipe_same.
    + now apply list_recipes_same.
Qed.

(** C1. The update is not atomic under every failure.  The Sword recipe is
    stored with Iron; it is updated to price 60 with Copper and Steel, and
    the insert of Copper fails in the way on which SQLite rolls the
    transaction back by itself (a full disk).  The handler has queued the
    insert of Steel before any callback runs, so it is executed after the
    rollback, in autocommit mode, and the ROLLBACK of the handler finds no
    transaction.  The answer is 500, yet the tables are not those before
    the request: the recipe keeps its old fields and Iron, and has the
    Steel of the failed request as well, which the next read serves. *)
Theorem failed_update_keeps_later_inserts :
  status (fst (update_recipe "1" (sword 60 [copper; steel]) full_disk_db))
  = 500
  /\ current (snd (update_recipe "1" (sword 60 [copper; steel]) full_disk_db))
     = Tables (recipes (current sword_db))
         (recipe_materials (current sword_db) ++ [material_row_of 1 steel])
  /\ current (snd (update_recipe "1" (sword 60 [copper; steel]) full_disk_db))
     <> current full_disk_db
  /\ txn (snd (update_recipe "1" (sword 60 [copper; steel]) full_disk_db))
     = None
  /\ fst (get_recipe "1"
            (snd (update_recipe "1" (sword 60 [copper; steel]) full_disk_db)))
     = Response 200
         (Recipe (FullRecipe 1 (JStr "Sword") (JNum 1) (JNum 50)
                    [material_of_json iron; material_of_json steel])).
Proof.
  repeat split; try reflexivity.
  vm_compute. discriminate.
Qed.

(* ===================================================================== *)
(** ** Update of an unknown id *)
(* ===================================================================== *)

(** C3. An update whose id parses to a number that no stored recipe has,
    with a body that passes validation, leaves the tables as they were (no
    row is created, modified or deleted) and no transaction open; it
    answers 404, found from the zero rows changed by the UPDATE statement,
    whenever that statement is not itself made to fail (500 then). *)
Theorem update_unknown_id_not_found (id_param : string) (i : Z)
    (body : request_body) (s : state) :
  parseInt id_param = Some i -> accepted body = true -> txn s = None ->
  stored i (current s) = false ->
  current (snd (update_recipe id_param body s)) = current s
  /\ txn (snd (update_recipe id_param body s)) = None
  /\ (fails (hd None (faults s)) = false ->
      fst (update_recipe id_param body s)
      = Response 404 (Error "Item não encontrado para atualização."))
  /\ (fails (hd None (faults s)) = true ->
      status (fst (update_recipe id_param body s)) = 500).
Proof.
  intros Hid Hacc Hidle Hnone.
  destruct (update_recipe id_param body s) as [resp s'] eqn:E.
  pose proof E as E'.
  eapply update_recipe_outcome in E as (Ht & Hc); eauto.
  cbn [fst snd].
  destruct Hc as [(_ & Hst & [Hc | (_ & Hs' & _)] & [Hh | Hs])
                 | [(Hh & _ & Hst & Hc) | (_ & Hs & _)]];
    try congruence.
  - repeat split; trivial. congruence.
  - repeat split; trivial; [| congruence]. intros _.
    (* the 404 answer carries the handler's message *)
    revert E'. apply accepted_inv in Hacc as [Hmiss Hsome].
    unfold update_recipe. fold (missing_field body).
    rewrite Hid, Hmiss, Hsome.
    unfold bind, ret, update_recipe_row, write_statement, next_fault.
    destruct (begin_transaction s) as [[] s0] eqn:E0.
    pose proof (begin_spec s Hidle) as (_ & Hc0 & Hf0).
    rewrite E0 in Hc0, Hf0. cbn [snd] in Hc0, Hf0.
    cbn [faults current txn log issue set_tables fst snd].
    rewrite Hf0, Hc0.
    destruct (hd None (faults s)); [discriminate |].
    cbn [fst snd].
    assert (Hz : List.length (filter (fun r => id r =? i)
                                (recipes (current s))) = O)
      by now apply changes_zero.
    rewrite Hz.
    destruct (rollback _) as [[] s2]. now intros [= <- _].
Qed.

Lemma update_unknown_id_not_found_witness :
  fst (update_recipe "7" (sword 60 [iron]) sword_db)
  = Response 404 (Error "Item não encontrado para atualização.")
  /\ current (snd (update_recipe "7" (sword 60 [iron]) sword_db))
     = current sword_db.
Proof.
  destruct (update_unknown_id_not_found "7" 7 (sword 60 [iron]) sword_db
              eq_refl eq_refl eq_refl eq_refl) as (Hc & _ & H404 & _).
  split; [exact (H404 eq_refl) | exact Hc].
Defined.

(* ===================================================================== *)
(** ** Create, then read *)
(* ===================================================================== *)

(** C4. For a valid create input (a non-empty name, a positive
    quantity_produced, a price, well-formed materials) on a connection
    without an open transaction whose material rows all reference a stored
    recipe, a create that meets no failure answers 201 with an id, and
    [get_recipe] on that id (its decimal text in the path), itself without
    failure, answers 200 with that id, the name, quantity_produced and
    npc_sell_price supplied, and one material for each input material, in
    the input order, with the four members supplied; so the materials are
    equal to the input as a set. *)
Theorem created_recipe_reads_back (body : request_body) (s : state) :
  valid_recipe body = true -> txn s = None ->
  references_ok (current s) = true ->
  failing (steps_create body) s = false ->
  exists i : Z,
    fst (create_recipe body s)
    = Response 201 (MessageId "Receita criada com sucesso!" i)
    /\ forall s2 : state,
         current s2 = current (snd (create_recipe body s)) ->
         failing 2 s2 = false ->
         fst (get_recipe (string_of_Z i) s2)
         = Response 200
             (Recipe
                (FullRecipe i (the (lookup "name" body))
                   (the (lookup "quantity_produced" body))
                   (the (lookup "npc_sell_price" body))
                   (map material_of_json
                      (elements (lookup "materials" body))))).
Proof.
  intros Hvalid Hidle Hrefs Hok.
  pose proof (valid_recipe_accepted body Hvalid) as Hacc.
  destruct (read_after_create body s Hacc Hidle Hrefs Hok) as [H201 Hget].
  exists (next_id (recipes (current s))). split; trivial.
  intros s2 Hs2 Hok2.
  rewrite (Hget _ s2 (parseInt_string_of_Z _) Hs2 Hok2).
  unfold valid_recipe in Hvalid.
  apply andb_true_iff in Hvalid as [H H5]. apply andb_true_iff in H as [H H4].
  apply andb_true_iff in H as [H H3]. apply andb_true_iff in H as [H1 H2].
  rewrite (column_bind_text _ H1), (column_bind_price _ H3).
  rewrite (column_bind_number _ (is_positive_number _ H2)).
  do 3 f_equal. apply map_ext_in. intros mat Hm.
  apply valid_material_read_back.
  rewrite forallb_forall in H5. now apply H5.
Qed.

(** The scenario of the specification: [create_recipe("Sword", 1, 50,
    [Iron])] on the empty database, then [get_recipe(1)]. *)
Lemma created_recipe_reads_back_witness :
  exists i : Z,
    fst (create_recipe (sword 50 [iron]) empty_db)
    = Response 201 (MessageId "Receita criada com sucesso!" i)
    /\ fst (get_recipe (string_of_Z i) sword_db)
       = Response 200
           (Recipe
              (FullRecipe i (JStr "Sword") (JNum 1) (JNum 50)
                 [Material (JStr "Iron") (JNum 3) (JStr "ore") (JNum 5)])).
Proof.
  destruct (created_recipe_reads_back (sword 50 [iron]) empty_db
              eq_refl eq_refl eq_refl eq_refl) as (i & H201 & Hget).
  exists i. split; [exact H201 |].
  exact (Hget sword_db eq_refl eq_refl).
Defined.

(* ===================================================================== *)
(** ** Referential integrity and delete *)
(* ===================================================================== *)

Lemma not_stored_find (i : Z) (t : tables) :
  stored i t = false -> find (fun r => id r =? i) (recipes t) = None.
Proof.
  unfold stored. induction (recipes t) as [| r rows IH]; simpl; trivial.
  intros H. apply orb_false_iff in H as [-> H]. now apply IH.
Qed.

Lemma filter_without_materials (i : Z) (rows : list material_row) :
  filter (fun m => recipe_id m =? i) (without_materials i rows) = [].
Proof.
  unfold without_materials.
  induction rows as [| m rows IH]; simpl; trivial.
  destruct (recipe_id m =? i) eqn:E; simpl; trivial. now rewrite E.
Qed.

Lemma not_stored_after_delete (i : Z) (rows : list recipe_row)
    (ms : list material_row) :
  stored i (Tables (filter (fun r => negb (id r =? i)) rows) ms) = false.
Proof.
  unfold stored. cbn [recipes].
  induction rows as [| r rows IH]; simpl; trivial.
  destruct (id r =? i) eqn:E; simpl; trivial. now rewrite E.
Qed.

(** C5. In every state the connection can be in between two requests,
    every material row references a stored recipe, and every request, under
    any injected failures, keeps it so.  After a delete that answers 200
    no recipe has the id, no material row references it (the cascade has
    removed them), and [get_recipe] on the id does not answer 200: it
    answers 404 unless its query is made to fail. *)
Theorem materials_reference_recipes (s : state) :
  reachable s ->
  references_ok (current s) = true
  /\ (forall (r : request) (fs : list (option fault)),
        references_ok (current (snd (handle r (inject fs s)))) = true)
  /\ forall (id_param : string) (i : Z) (fs : list (option fault)),
       parseInt id_param = Some i ->
       status (fst (delete_recipe id_param (inject fs s))) = 200 ->
       stored i (current (snd (delete_recipe id_param (inject fs s)))) = false
       /\ filter (fun m => recipe_id m =? i)
            (recipe_materials
               (current (snd (delete_recipe id_param (inject fs s))))) = []
       /\ forall fs' : list (option fault),
            status (fst (get_recipe id_param
                           (inject fs'
                              (snd (delete_recipe id_param (inject fs s))))))
            <> 200
            /\ (fails (hd None fs') = false ->
                fst (get_recipe id_param
                       (inject fs'
                          (snd (delete_recipe id_param (inject fs s)))))
                = Response 404 (Error "Item não encontrado.")).
Proof.
  intros Hreach.
  destruct (reachable_invariant s Hreach) as [Hidle Hrefs].
  split; trivial. split.
  - intros r fs.
    apply (reachable_invariant _ (reachable_step s fs r Hreach)).
  - intros idp i fs Hid H200.
    destruct (delete_recipe_outcome idp i (inject fs s) Hid) as (_ & Hc).
    destruct Hc as [(H & _) | [(H & _) | (_ & _ & _ & Hc)]];
      try (rewrite H in H200; discriminate).
    rewrite Hc. split; [apply not_stored_after_delete |].
    split; [apply filter_without_materials |].
    intros fs'. unfold get_recipe. rewrite Hid.
    rewrite (proj1 (get_recipe_by_id_spec i _)).
    cbn [inject faults current]. rewrite Hc.
    rewrite not_stored_find by apply not_stored_after_delete.
    destruct (fails (hd None fs')); split; trivial; discriminate.
Qed.

(** The Sword recipe is created, then deleted, then read. *)
Lemma materials_reference_recipes_witness :
  references_ok (current sword_db) = true
  /\ fst (get_recipe "1" (snd (delete_recipe "1" sword_db)))
     = Response 404 (Error "Item não encontrado.")
  /\ recipe_materials (current (snd (delete_recipe "1" sword_db))) = [].
Proof.
  assert (Hreach : reachable sword_db).
  { exact (reachable_step empty_db [] (CreateRecipe (sword 50 [iron]))
             reachable_empty). }
  destruct (materials_reference_recipes sword_db Hreach) as (Hrefs & _ & Hdel).
  split; [exact Hrefs |].
  destruct (Hdel "1" 1 [] eq_refl eq_refl) as (_ & _ & Hget).
  split; [exact (proj2 (Hget []) eq_refl) | reflexivity].
Defined.

(* ===================================================================== *)
(** ** A recipe without materials *)
(* ===================================================================== *)

Lemma stored_find (i : Z) (t : tables) :
  stored i t = true ->
  exists row, find (fun r => id r =? i) (recipes t) = Some row /\ id row = i.
Proof.
  unfold stored. induction (recipes t) as [| r rows IH]; simpl;
    [discriminate |].
  destruct (id r =? i) eqn:E; simpl.
  - intros _. exists r. split; trivial. now apply Z.eqb_eq.
  - exact IH.
Qed.

(** C10. For a stored recipe that no material row references,
    [get_recipe] never answers 404; an answer 200 always carries a
    materials list, and that list is empty; and the answer is 200, with
    the id asked for, whenever neither of its two queries is made to
    fail. *)
Theorem recipe_without_materials (id_param : string) (i : Z) (s : state) :
  parseInt id_param = Some i -> stored i (current s) = true ->
  filter (fun m => recipe_id m =? i) (recipe_materials (current s)) = [] ->
  status (fst (get_recipe id_param s)) <> 404
  /\ (status (fst (get_recipe id_param s)) = 200 ->
      exists r, payload (fst (get_recipe id_param s)) = Recipe r
                /\ rec_id r = i /\ rec_materials r = [])
  /\ (failing 2 s = false -> status (fst (get_recipe id_param s)) = 200).
Proof.
  intros Hid Hst Hnone. unfold get_recipe. rewrite Hid.
  rewrite (proj1 (get_recipe_by_id_spec i s)), Hnone.
  destruct (stored_find i _ Hst) as (row & -> & Hrow).
  split; [| split].
  - destruct (fails (hd None (faults s))); [discriminate |].
    destruct (fails (hd None (tl (faults s)))); discriminate.
  - destruct (fails (hd None (faults s))); [discriminate |].
    destruct (fails (hd None (tl (faults s)))); [discriminate |].
    intros _. eexists. split; [reflexivity |]. now split.
  - intros Hok. apply failing_2 in Hok as [-> ->]. reflexivity.
Qed.

(** The Sword recipe after an update to an empty material list. *)
Lemma recipe_without_materials_witness :
  let s := snd (update_recipe "1" (sword 60 []) sword_db) in
  status (fst (get_recipe "1" s)) = 200
  /\ exists r, payload (fst (get_recipe "1" s)) = Recipe r
               /\ rec_id r = 1 /\ rec_materials r = [].
Proof.
  intros s.
  destruct (recipe_without_materials "1" 1 s eq_refl eq_refl eq_refl)
    as (_ & Hbody & H200).
  split; [exact (H200 eq_refl) | exact (Hbody (H200 eq_refl))].
Defined.

(* ===================================================================== *)
(** ** The list *)
(* ===================================================================== *)

(** The comparison of the modelled query orders texts as the
    specification's order does. *)
Lemma string_leb_spec (a : string) :
  forall b : string, (a <=? b)%string = true <-> spec_text_le a b.
Proof.
  unfold String.leb.
  induction a as [| c a IH]; intros [| d b]; cbn [String.compare].
  - split; [constructor | trivial].
  - split; [constructor | trivial].
  - split; [discriminate | intros H; inversion H].
  - unfold Ascii.compare.
    destruct (N.compare_spec (N_of_ascii c) (N_of_ascii d)) as [E | E | E].
    + assert (Hcd : c = d).
      { rewrite <- (ascii_N_embedding c), <- (ascii_N_embedding d).
        now rewrite E. }
      subst d. rewrite IH. split.
      * now constructor.
      * intros H. inversion H; subst; trivial. lia.
    + split; [now constructor | trivial].
    + split; [discriminate |].
      intros H. inversion H; subst; lia.
Qed.

(** [ORDER BY name ASC], as modelled, compares two stored names as the
    specification's order compares the names answered. *)
Lemma sql_leb_spec (a b : sqlval) :
  sql_leb a b = true <-> spec_name_le (column a) (column b).
Proof.
  destruct a as [| x | x], b as [| y | y]; cbn [sql_leb column];
    try (split; [constructor | trivial]; fail);
    try (split; [discriminate | intros H; inversion H]; fail).
  - rewrite Z.leb_le. split; [now constructor | now inversion 1].
  - rewrite string_leb_spec. split; [now constructor | now inversion 1].
Qed.

(** The specification's order is an order on names: two names that come
    before each other are the same name.  So the ascending arrangement of
    a set of names is the only one. *)
Lemma spec_text_le_antisym (a b : string) :
  spec_text_le a b -> spec_text_le b a -> a = b.
Proof.
  induction 1 as [b | c d a b Hlt | c a b Hab IH]; intros Hba.
  - now inversion Hba.
  - inversion Hba; subst; lia.
  - inversion Hba; subst; [lia |]. f_equal. now apply IH.
Qed.

Lemma spec_name_le_antisym (a b : json) :
  spec_name_le a b -> spec_name_le b a -> a = b.
Proof.
  destruct 1 as [b | x y Hxy | x t | a b Hab]; intros Hba.
  - now inversion Hba.
  - inversion Hba; subst. f_equal. lia.
  - inversion Hba.
  - inversion Hba; subst. f_equal. now apply spec_text_le_antisym.
Qed.

Lemma ascending_items (rows : list recipe_row) :
  StronglySorted name_le rows -> ascending_by_name (map item_of_recipe rows).
Proof.
  unfold ascending_by_name.
  induction 1 as [| r rows Hrows IH Hall]; cbn [map]; constructor; trivial.
  apply Forall_map. eapply Forall_impl; [| exact Hall].
  intros r' Hle. cbn [item_of_recipe item_name]. now apply sql_leb_spec.
Qed.

(** C8. Unless its query is made to fail (500), [list_recipes] answers 200
    with one [{ id, name, npc_sell_price }] for each row of [recipes], all
    of them and nothing else (the rows behind the answer are a permutation
    of the table), and the entries of the answer are in ascending order of
    name, in the order the specification gives to names
    ([ascending_by_name]: character by character by code, so Axe before
    Sword before bow), not in the order of the table; the tables are left
    as they were. *)
Theorem list_recipes_sorted_by_name (s : state) :
  (exists rows : list recipe_row,
     Permutation rows (recipes (current s))
     /\ ascending_by_name (map item_of_recipe rows)
     /\ fst (list_recipes s)
        = (if fails (hd None (faults s))
           then Response 500
                  (Error "Erro interno do servidor ao buscar itens (verifique schema do DB).")
           else Response 200 (Items (map item_of_recipe rows)))
     /\ current (snd (list_recipes s)) = current s)
  /\ fst (list_recipes armory_db)
     = Response 200
         (Items [Item 3 (JStr "Axe") (JNum 30);
                 Item 1 (JStr "Sword") (JNum 50);
                 Item 2 (JStr "bow") (JNum 20)]).
Proof.
  split; [| reflexivity].
  exists (order_by_name (recipes (current s))).
  destruct (list_recipes_spec s) as (Hresp & Hc & _).
  repeat split; trivial.
  - apply order_by_name_perm.
  - apply ascending_items, order_by_name_sorted.
Qed.

(* ===================================================================== *)
(** ** Validation of the body *)
(* ===================================================================== *)

(** A body that passes validation is never answered 400. *)
Lemma create_recipe_accepted_status (body : request_body) (s : state) :
  accepted body = true ->
  status (fst (create_recipe body s)) = 500
  \/ status (fst (create_recipe body s)) = 201.
Proof.
  intros Hacc. apply accepted_inv in Hacc as [Hmiss Hsome].
  unfold create_recipe. fold (missing_field body). rewrite Hmiss, Hsome.
  unfold bind, ret. repeat case_scrutinee; cbn [fst status]; tauto.
Qed.

Lemma not_an_array (v : value) :
  isArray v = false <-> forall items, v <> Some (JArr items).
Proof.
  destruct v as [[| | | | items |] |]; simpl; split; trivial; try discriminate.
  intros H. now contradiction (H items).
Qed.

Lemma missing_field_iff (body : request_body) :
  missing_field body = true
  <-> truthy (lookup "name" body) = false
      \/ truthy (lookup "quantity_produced" body) = false
      \/ forall items, lookup "materials" body <> Some (JArr items).
Proof.
  unfold missing_field, falsy. rewrite <- not_an_array.
  destruct (truthy (lookup "name" body));
    destruct (truthy (lookup "quantity_produced" body));
    destruct (lookup "materials" body) as [[| | | | items |] |];
    simpl; rewrite ?orb_true_r;
    intuition (try discriminate; try congruence).
Qed.

(** The answer 400 of a create, in terms of the body. *)
Lemma create_recipe_400 (body : request_body) (s : state) :
  status (fst (create_recipe body s)) = 400 <-> validation_error body.
Proof.
  unfold validation_error. split.
  - intros H400.
    destruct (missing_field body) eqn:Hmiss.
    + apply missing_field_iff in Hmiss. tauto.
    + destruct (some_invalid (elements (lookup "materials" body)))
        as [[|] |] eqn:Hsome.
      * right. right. right.
        apply some_invalid_true in Hsome as (before & mat & after & Hl & H).
        exists before, mat, after. split; trivial.
        unfold missing_field in Hmiss.
        destruct (lookup "materials" body) as [[| | | | items |] |];
          simpl in Hl |- *; try (now destruct before).
        now subst.
      * assert (Hacc : accepted body = true)
          by (unfold accepted; now rewrite Hmiss, Hsome).
        destruct (create_recipe_accepted_status body s Hacc) as [H | H];
          rewrite H in H400; discriminate.
      * revert H400. unfold create_recipe. fold (missing_field body).
        rewrite Hmiss, Hsome. discriminate.
  - intros H. unfold create_recipe. fold (missing_field body).
    destruct (missing_field body) eqn:Hmiss; trivial.
    assert (Hnot : ~ (truthy (lookup "name" body) = false
                      \/ truthy (lookup "quantity_produced" body) = false
                      \/ forall items,
                           lookup "materials" body <> Some (JArr items))).
    { intros Hm. apply missing_field_iff in Hm. congruence. }
    destruct H as [H | [H | [H | (before & mat & after & Hl & H)]]];
      try (exfalso; apply Hnot; tauto).
    rewrite Hl. cbn [elements].
    assert (Hsome : some_invalid (before ++ mat :: after) = Normal true).
    { apply some_invalid_true. now exists before, mat, after. }
    now rewrite Hsome.
Qed.

(** C6 (as amended). A create is answered 400 exactly when [name] or
    [quantity_produced] is missing or falsy (absent, [null], [false], [0],
    the empty string), [materials] is missing or not an array, or some
    material entry that is not [null] lacks a truthy [material_name],
    [quantity] or [material_type] while every entry before it is complete;
    and a create answered 400 has issued no statement: the connection, its
    log included, is what it was.  The test is one of truthiness, not of
    sign. *)
Theorem create_rejects_falsy_fields (body : request_body) (s : state) :
  (status (fst (create_recipe body s)) = 400 <-> validation_error body)
  /\ (status (fst (create_recipe body s)) = 400 ->
      snd (create_recipe body s) = s).
Proof.
  split; [apply create_recipe_400 |].
  intros H400. destruct (accepted_or_not body) as [Hacc | Hacc].
  - destruct (create_recipe_accepted_status body s Hacc) as [H | H];
      rewrite H in H400; discriminate.
  - now apply create_recipe_rejected.
Qed.

(** C6 fails as stated: a create with [quantity_produced = -1] and a
    material of quantity [-3] is carried out and answered 201. *)
Lemma negative_quantity_is_accepted :
  let body := [("name", JStr "Sword"); ("quantity_produced", JNum (-1));
               ("materials",
                JArr [JObj [("material_name", JStr "Iron");
                            ("quantity", JNum (-3));
                            ("material_type", JStr "ore")]])] in
  status (fst (create_recipe body empty_db)) = 201
  /\ recipes (current (snd (create_recipe body empty_db)))
     = [RecipeRow 1 (SText "Sword") (SInt (-1)) (SInt 0)]
  /\ recipe_materials (current (snd (create_recipe body empty_db)))
     = [MaterialRow 1 (SText "Iron") (SInt (-3)) (SText "ore") (SInt 0)].
Proof. repeat split. Qed.





(* ===================================================================== *)
(** ** The id of the path *)
(* ===================================================================== *)

(** C7 fails as stated: [12abc] is not a numeric string, yet the read
    queries the store for recipe 12, and DELETE /api/items/1abc deletes
    recipe 1. *)
Lemma id_with_numeric_prefix_is_accepted :
  numeric_string "12abc" = false
  /\ get_recipe "12abc" empty_db
     = (Response 404 (Error "Item não encontrado."),
        State (Tables [] []) None []
          ["SELECT id, name, quantity_produced, npc_sell_price FROM recipes WHERE id = ?"])
  /\ numeric_string "1abc" = false
  /\ status (fst (delete_recipe "1abc" sword_db)) = 200
  /\ current (snd (delete_recipe "1abc" sword_db)) = Tables [] []
  /\ status (fst (update_recipe "1abc" (sword 60 [iron]) sword_db)) = 200.
Proof. repeat split. Qed.

(** C7 (as amended). When [parseInt] finds no number in the id (no decimal
    digit right after the leading white space and an optional sign), the
    three routes that take an id answer 400 without a statement: the
    connection, its log included, is what it was.  Such an id is never a
    numeric string; an id that only starts with a number is parsed to that
    number and is not rejected. *)
Theorem unparsable_id_is_rejected (id_param : string) (body : request_body)
    (s : state) :
  parseInt id_param = None ->
  numeric_string id_param = false
  /\ status invalid_id = 400
  /\ get_recipe id_param s = (invalid_id, s)
  /\ update_recipe id_param body s = (invalid_id, s)
  /\ delete_recipe id_param s = (invalid_id, s).
Proof.
  intros H. split.
  - destruct (numeric_string id_param) eqn:E; trivial.
    apply numeric_string_parses in E as [n E]. congruence.
  - unfold get_recipe, update_recipe, delete_recipe. rewrite H.
    repeat split.
Qed.

Lemma unparsable_id_is_rejected_witness :
  get_recipe "abc" sword_db = (invalid_id, sword_db)
  /\ update_recipe "abc" (sword 60 [iron]) sword_db = (invalid_id, sword_db)
  /\ delete_recipe "abc" sword_db = (invalid_id, sword_db).
Proof.
  destruct (unparsable_id_is_rejected "abc" (sword 60 [iron]) sword_db eq_refl)
    as (_ & _ & Hg & Hu & Hd).
  split; [exact Hg | split; [exact Hu | exact Hd]].
Defined.

(* ===================================================================== *)
(** ** Prices *)
(* ===================================================================== *)

(** C9 fails as stated: a create with [npc_sell_price = -5] and a material
    with [default_npc_price = -2] is carried out, and the recipe reads back
    with both negative prices. *)
Lemma negative_price_is_stored :
  let body :=
    [("name", JStr "Sword"); ("quantity_produced", JNum 1);
     ("npc_sell_price", JNum (-5));
     ("materials",
      JArr [JObj [("material_name", JStr "Iron"); ("quantity", JNum 3);
                  ("material_type", JStr "ore");
                  ("default_npc_price", JNum (-2))]])] in
  status (fst (create_recipe body empty_db)) = 201
  /\ fst (get_recipe "1" (snd (create_recipe body empty_db)))
     = Response 200
         (Recipe
            (FullRecipe 1 (JStr "Sword") (JNum 1) (JNum (-5))
               [Material (JStr "Iron") (JNum 3) (JStr "ore") (JNum (-2))]))
  /\ is_negative (JNum (-5)) = true /\ is_negative (JNum (-2)) = true.
Proof. repeat split. Qed.

Lemma price_read_back_or_else (v : value) :
  price_read_back v (column (bind_param (or_else v (Some (JNum 0))))).
Proof.
  split.
  - intros ->. reflexivity.
  - intros p ->. unfold or_else. simpl.
    destruct (p =? 0) eqn:E; simpl; trivial.
    apply Z.eqb_eq in E. now subst.
Qed.

Lemma prices_read_back_written (i : Z) (body : request_body) (n q : json) :
  prices_read_back body
    (FullRecipe i n q
       (column (bind_param (or_else (lookup "npc_sell_price" body)
                              (Some (JNum 0)))))
       (map (fun mat => material_of_row (material_row_of i mat))
          (elements (lookup "materials" body)))).
Proof.
  split; cbn [rec_npc_sell_price rec_materials].
  - apply price_read_back_or_else.
  - induction (elements (lookup "materials" body)) as [| mat mats IH];
      simpl; constructor; trivial.
    apply price_read_back_or_else.
Qed.

(** C9 (as amended). A price that a create or update request leaves out
    is stored as 0, and a price given as a number is stored as given,
    whatever its sign: for a body that passes validation, once the create
    (or the update of a stored recipe) has met no failure, [get_recipe] on
    the recipe, itself without failure, answers 200 with
    [npc_sell_price = 0] when the request had none and the number of the
    request otherwise, and likewise for the [default_npc_price] of each
    material. *)
Theorem absent_price_defaults_to_zero (body : request_body) (s : state) :
  accepted body = true -> txn s = None ->
  references_ok (current s) = true ->
  (failing (steps_create body) s = false ->
   forall s2 : state,
     current s2 = current (snd (create_recipe body s)) ->
     failing 2 s2 = false ->
     exists r,
       fst (get_recipe (string_of_Z (next_id (recipes (current s)))) s2)
       = Response 200 (Recipe r)
       /\ prices_read_back body r)
  /\ (forall (id_param : string) (i : Z),
        parseInt id_param = Some i -> stored i (current s) = true ->
        failing (steps_update body) s = false ->
        forall s2 : state,
          current s2 = current (snd (update_recipe id_param body s)) ->
          failing 2 s2 = false ->
          exists r, fst (get_recipe id_param s2) = Response 200 (Recipe r)
                    /\ prices_read_back body r).
Proof.
  intros Hacc Hidle Hrefs. split.
  - intros Hok s2 Hs2 Hok2.
    destruct (read_after_create body s Hacc Hidle Hrefs Hok) as [_ Hget].
    eexists.
    split; [apply (Hget _ s2 (parseInt_string_of_Z _) Hs2 Hok2) |].
    apply prices_read_back_written.
  - intros idp i Hid Hst Hok s2 Hs2 Hok2.
    destruct (read_after_update idp i body s Hid Hacc Hidle Hst Hok)
      as [_ Hget].
    eexists. split; [apply (Hget s2 Hs2 Hok2) |].
    apply prices_read_back_written.
Qed.

(** A Sword created without [npc_sell_price], from a material without
    [default_npc_price], reads back with both prices 0. *)
Lemma absent_price_defaults_to_zero_witness :
  let body :=
    [("name", JStr "Sword"); ("quantity_produced", JNum 1);
     ("materials",
      JArr [JObj [("material_name", JStr "Iron"); ("quantity", JNum 3);
                  ("material_type", JStr "ore")]])] in
  exists r,
    fst (get_recipe "1" (snd (create_recipe body empty_db)))
    = Response 200 (Recipe r)
    /\ rec_npc_sell_price r = JNum 0
    /\ map mat_default_npc_price (rec_materials r) = [JNum 0].
Proof.
  intros body.
  destruct (absent_price_defaults_to_zero body empty_db
              eq_refl eq_refl eq_refl) as (Hc & _).
  destruct (Hc eq_refl (snd (create_recipe body empty_db))
              eq_refl eq_refl) as (r & Hr & Hp & Hm).
  exists r. split; [exact Hr |]. split; [exact (proj1 Hp eq_refl) |].
  cbv in Hr. injection Hr as <-. reflexivity.
Defined.

(* ===================================================================== *)
(** ** What a request can do to the tables *)
(* ===================================================================== *)

(** On a connection without an open transaction a request either leaves
    the tables as they were, or carries out one create, one update of a
    stored recipe or one delete, or (the update whose transaction a
    failure has ended) adds material rows of its body to a stored recipe;
    it leaves no transaction open. *)
Lemma handle_tables (r : request) (s : state) :
  txn s = None ->
  txn (snd (handle r s)) = None
  /\ (current (snd (handle r s)) = current s
      \/ (exists body, accepted body = true
                       /\ current (snd (handle r s)) = created body (current s))
      \/ (exists i body, accepted body = true /\ stored i (current s) = true
                         /\ current (snd (handle r s))
                            = updated i body (current s))
      \/ (exists i, stored i (current s) = true
                    /\ current (snd (handle r s)) = deleted i (current s))
      \/ (exists i body extra,
            accepted body = true /\ stored i (current s) = true
            /\ recipes (current (snd (handle r s))) = recipes (current s)
            /\ recipe_materials (current (snd (handle r s)))
               = (recipe_materials (current s) ++ extra)%list
            /\ forall m, In m extra ->
                 In m (map (material_row_of i)
                         (elements (lookup "materials" body))))).
Proof.
  intros Hidle. destruct r as [| idp | n | body | idp body | idp];
    cbn [handle].
  - destruct (list_recipes_spec s) as (_ & -> & ->). auto.
  - unfold get_recipe. destruct (parseInt idp) as [i |]; [| auto].
    destruct (get_recipe_by_id_spec i s) as (_ & -> & ->). auto.
  - destruct (get_price_by_name_spec n s) as (-> & ->). auto.
  - destruct (accepted_or_not body) as [Hacc | Hacc].
    + destruct (create_recipe body s) as [resp s'] eqn:E.
      apply create_recipe_outcome in E as (Ht & Hc); trivial.
      cbn [snd]. split; trivial.
      destruct Hc as [(_ & _ & ->) | (_ & _ & ->)]; [now left |].
      right. left. now exists body.
    + destruct (create_recipe_rejected body s Hacc) as [-> _]. auto.
  - destruct (parseInt idp) as [i |] eqn:Hid.
    + destruct (accepted_or_not body) as [Hacc | Hacc].
      * destruct (update_recipe idp body s) as [resp s'] eqn:E.
        eapply update_recipe_outcome in E as (Ht & Hc); eauto.
        cbn [snd]. split; trivial.
        destruct Hc as [(_ & _ & [-> | Hpart] & _)
                       | [(_ & _ & _ & ->) | (_ & Hst & _ & ->)]];
          [now left | | now left |].
        -- destruct Hpart as (_ & Hst & Hrs & extra & Hms & Hin).
           do 4 right. now exists i, body, extra.
        -- right. right. left. now exists i, body.
      * destruct (update_recipe_rejected idp body s Hacc) as [-> _]. auto.
    + unfold update_recipe. rewrite Hid. auto.
  - destruct (parseInt idp) as [i |] eqn:Hid.
    + destruct (delete_recipe_outcome idp i s Hid) as (Ht & Hc).
      split; [congruence |].
      destruct Hc as [(_ & _ & ->) | [(_ & _ & ->) | (_ & _ & Hst & ->)]];
        [now left | now left |].
      right. right. right. left. now exists i.
    + unfold delete_recipe. rewrite Hid. auto.
Qed.

Lemma reachable_idle (s : state) : reachable s -> txn s = None.
Proof. intros H. now apply reachable_invariant in H. Qed.

(* ===================================================================== *)
(** ** Ids *)
(* ===================================================================== *)

Lemma updated_recipes_ids (i : Z) (body : request_body)
    (rows : list recipe_row) :
  map id (updated_recipes i body rows) = map id rows.
Proof.
  unfold updated_recipes. rewrite map_map. apply map_ext.
  intros r. now destruct (id r =? i).
Qed.

(** Removing rows keeps the ids distinct. *)
Lemma distinct_ids_after_removal (keep : recipe_row -> bool)
    (rows : list recipe_row) :
  NoDup (map id rows) -> NoDup (map id (filter keep rows)).
Proof.
  induction rows as [| r rows IH]; cbn [filter map]; trivial.
  rewrite NoDup_cons_iff. intros [Hfresh Hrest].
  destruct (keep r); cbn [map]; [| exact (IH Hrest)].
  apply NoDup_cons; [| exact (IH Hrest)].
  contradict Hfresh.
  apply in_map_iff in Hfresh as (r0 & Hid & Hr0).
  apply filter_In in Hr0 as [Hr0 _].
  rewrite <- Hid. now apply in_map.
Qed.

Lemma next_id_positive (rows : list recipe_row) : 1 <= next_id rows.
Proof.
  unfold next_id.
  assert (H : 0 <= fold_right (fun r m => Z.max (id r) m) 0 rows).
  { induction rows as [| r rows IH]; cbn [fold_right]; lia. }
  lia.
Qed.

(** X1. In every state the connection can be in between two requests, the
    recipe rows have pairwise distinct ids and every id is at least 1:
    the id that a create hands out is never the id of a stored recipe, an
    update keeps the ids and a delete only removes rows. *)
Theorem recipe_ids_are_unique (s : state) :
  reachable s ->
  NoDup (map id (recipes (current s)))
  /\ Forall (fun r => 1 <= id r) (recipes (current s)).
Proof.
  induction 1 as [| s fs r Hreach [Hnodup Hpos]].
  - split; constructor.
  - assert (Hidle : txn (inject fs s) = None)
      by (cbn [inject txn]; now apply reachable_idle).
    destruct (handle_tables r (inject fs s) Hidle) as (_ & Hc).
    cbn [inject current] in Hc.
    destruct Hc as [-> | [(body & _ & ->) | [(i & body & _ & _ & ->)
                   | [(i & _ & ->) | (i & body & extra & _ & _ & -> & _)]]]];
      cbn [created updated deleted recipes]; [| | | | now split].
    + now split.
    + split.
      * rewrite map_app. cbn [map recipe_row_of id].
        apply Permutation_NoDup with (l := next_id (recipes (current s))
                                             :: map id (recipes (current s))).
        { apply Permutation_cons_append. }
        constructor; trivial.
        intros Hin. apply in_map_iff in Hin as (r0 & Hr0 & Hin).
        apply next_id_fresh in Hin. lia.
      * apply Forall_app. split; trivial.
        constructor; [| constructor]. apply next_id_positive.
    + split.
      * now rewrite updated_recipes_ids.
      * unfold updated_recipes. apply Forall_map.
        eapply Forall_impl; [| exact Hpos].
        intros r0 Hr0. now destruct (id r0 =? i).
    + split.
      * now apply distinct_ids_after_removal.
      * apply Forall_forall. intros r0 Hr0.
        apply filter_In in Hr0 as [Hr0 _].
        rewrite Forall_forall in Hpos. now apply Hpos.
Qed.

Lemma recipe_ids_are_unique_witness :
  NoDup (map id (recipes (current (snd (create_recipe (sword 60 []) sword_db)))))
  /\ Forall (fun r => 1 <= id r)
       (recipes (current (snd (create_recipe (sword 60 []) sword_db)))).
Proof.
  apply (recipe_ids_are_unique
           (snd (handle (CreateRecipe (sword 60 [])) (inject [] sword_db)))).
  apply reachable_step.
  exact (reachable_step empty_db [] (CreateRecipe (sword 50 [iron]))
           reachable_empty).
Defined.

(* ===================================================================== *)
(** ** No NULL is stored *)
(* ===================================================================== *)

Lemma bind_truthy_not_null (v : value) :
  truthy v = true -> not_null (bind_param v) = true.
Proof. destruct v as [[| | | | |] |]; simpl; trivial; discriminate. Qed.

Lemma bind_or_zero_not_null (v : value) :
  not_null (bind_param (or_else v (Some (JNum 0)))) = true.
Proof.
  unfold or_else. destruct (truthy v) eqn:E; [| reflexivity].
  now apply bind_truthy_not_null.
Qed.

Lemma accepted_fields (body : request_body) :
  accepted body = true ->
  truthy (lookup "name" body) = true
  /\ truthy (lookup "quantity_produced" body) = true
  /\ Forall entry_complete (elements (lookup "materials" body)).
Proof.
  intros H. apply accepted_inv in H as [Hmiss Hsome].
  apply some_invalid_false in Hsome.
  unfold missing_field, falsy in Hmiss.
  destruct (truthy (lookup "name" body));
    destruct (truthy (lookup "quantity_produced" body));
    simpl in Hmiss; try discriminate.
  now repeat split.
Qed.

Lemma recipe_row_of_filled (i : Z) (body : request_body) :
  accepted body = true -> recipe_row_filled (recipe_row_of i body) = true.
Proof.
  intros H. apply accepted_fields in H as (Hn & Hq & _).
  unfold recipe_row_filled, recipe_row_of.
  cbn [name quantity_produced npc_sell_price].
  now rewrite (bind_truthy_not_null _ Hn), (bind_truthy_not_null _ Hq),
    bind_or_zero_not_null.
Qed.

Lemma material_row_of_filled (i : Z) (mat : json) :
  entry_complete mat -> material_row_filled (material_row_of i mat) = true.
Proof.
  intros (_ & Hn & Hq & Ht).
  unfold material_row_filled, material_row_of.
  cbn [material_name quantity material_type default_npc_price].
  now rewrite (bind_truthy_not_null _ Hn), (bind_truthy_not_null _ Hq),
    (bind_truthy_not_null _ Ht), bind_or_zero_not_null.
Qed.

Lemma new_materials_filled (i : Z) (body : request_body) :
  accepted body = true ->
  forallb material_row_filled
    (map (material_row_of i) (elements (lookup "materials" body))) = true.
Proof.
  intros H. apply accepted_fields in H as (_ & _ & Hall).
  apply forallb_forall. intros m Hm.
  apply in_map_iff in Hm as (mat & <- & Hmat).
  rewrite Forall_forall in Hall. now apply material_row_of_filled, Hall.
Qed.

Lemma forallb_filter {A : Type} (p q : A -> bool) (l : list A) :
  forallb p l = true -> forallb p (filter q l) = true.
Proof.
  rewrite !forallb_forall. intros H x Hx.
  apply filter_In in Hx as [Hx _]. now apply H.
Qed.

(** X2. In every state the connection can be in between two requests, no
    column of a recipe row or of a material row is NULL: validation lets
    through only truthy [name], [quantity_produced], [material_name],
    [quantity] and [material_type], and the two prices are bound through
    [|| 0]. *)
Theorem no_null_is_stored (s : state) :
  reachable s -> no_null_columns (current s) = true.
Proof.
  induction 1 as [| s fs r Hreach IH]; [reflexivity |].
  assert (Hidle : txn (inject fs s) = None)
    by (cbn [inject txn]; now apply reachable_idle).
  destruct (handle_tables r (inject fs s) Hidle) as (_ & Hc).
  cbn [inject current] in Hc.
  unfold no_null_columns in *. apply andb_true_iff in IH as [Hr Hm].
  destruct Hc as [-> | [(body & Hacc & ->) | [(i & body & Hacc & _ & ->)
                 | [(i & _ & ->) | (i & body & extra & Hacc & _ & Hrs & Hms & Hin)]]]];
    cbn [created updated deleted recipes recipe_materials];
    apply andb_true_iff; split; trivial.
  - rewrite forallb_app, Hr. cbn [forallb].
    now rewrite recipe_row_of_filled.
  - now rewrite forallb_app, Hm, new_materials_filled.
  - unfold updated_recipes. apply forallb_forall. intros r0 Hr0.
    apply in_map_iff in Hr0 as (r1 & <- & Hr1).
    rewrite forallb_forall in Hr.
    destruct (id r1 =? i); [| now apply Hr].
    now apply (recipe_row_of_filled (id r1)).
  - rewrite forallb_app, new_materials_filled by trivial.
    unfold without_materials. now rewrite forallb_filter.
  - now apply forallb_filter.
  - unfold without_materials. now apply forallb_filter.
  - now rewrite Hrs.
  - rewrite Hms, forallb_app, Hm. cbn [andb].
    apply forallb_forall. intros m Hin'.
    pose proof (new_materials_filled i body Hacc) as Hall.
    rewrite forallb_forall in Hall. now apply Hall, Hin.
Qed.

(** A Sword created without prices: the rows carry 0, not NULL. *)
Lemma no_null_is_stored_witness :
  no_null_columns
    (current
       (snd (create_recipe
               [("name", JStr "Sword"); ("quantity_produced", JNum 1);
                ("materials",
                 JArr [JObj [("material_name", JStr "Iron");
                             ("quantity", JNum 3);
                             ("material_type", JStr "ore")]])]
               empty_db))) = true.
Proof.
  apply (no_null_is_stored
           (snd (handle
                   (CreateRecipe
                      [("name", JStr "Sword"); ("quantity_produced", JNum 1);
                       ("materials",
                        JArr [JObj [("material_name", JStr "Iron");
                                    ("quantity", JNum 3);
                                    ("material_type", JStr "ore")]])])
                   (inject [] empty_db)))).
  apply reachable_step. exact reachable_empty.
Defined.

(* ===================================================================== *)
(** ** A write to one recipe and the others *)
(* ===================================================================== *)











(* ===================================================================== *)
(** ** Update, then read *)
(* ===================================================================== *)

(** X4. An update is a full replacement.  For a valid input and a stored
    recipe [i], on a connection without an open transaction, an update
    that meets no failure answers 200 with [i], and [get_recipe] on the
    same path id, itself without failure, answers 200 with [i], the name,
    quantity_produced and npc_sell_price of the request and exactly the
    materials of the request, in the order of the request: none of the
    former materials of the recipe is left. *)
Theorem updated_recipe_reads_back (id_param : string) (i : Z)
    (body : request_body) (s : state) :
  parseInt id_param = Some i ->
  valid_recipe body = true -> txn s = None ->
  stored i (current s) = true ->
  failing (steps_update body) s = false ->
  fst (update_recipe id_param body s)
  = Response 200 (MessageId "Receita atualizada com sucesso!" i)
  /\ forall s2 : state,
       current s2 = current (snd (update_recipe id_param body s)) ->
       failing 2 s2 = false ->
       fst (get_recipe id_param s2)
       = Response 200
           (Recipe
              (FullRecipe i (the (lookup "name" body))
                 (the (lookup "quantity_produced" body))
                 (the (lookup "npc_sell_price" body))
                 (map material_of_json
                    (elements (lookup "materials" body))))).
Proof.
  intros Hid Hvalid Hidle Hst Hok.
  pose proof (valid_recipe_accepted body Hvalid) as Hacc.
  destruct (read_after_update id_param i body s Hid Hacc Hidle Hst Hok)
    as [H200 Hget].
  split; trivial.
  intros s2 Hs2 Hok2. rewrite (Hget s2 Hs2 Hok2).
  unfold valid_recipe in Hvalid.
  apply andb_true_iff in Hvalid as [H H5]. apply andb_true_iff in H as [H H4].
  apply andb_true_iff in H as [H H3]. apply andb_true_iff in H as [H1 H2].
  rewrite (column_bind_text _ H1), (column_bind_price _ H3).
  rewrite (column_bind_number _ (is_positive_number _ H2)).
  do 3 f_equal. apply map_ext_in. intros mat Hm.
  apply valid_material_read_back.
  rewrite forallb_forall in H5. now apply H5.
Qed.

(** The Sword is updated to a price of 60 and two units of Iron. *)
Lemma updated_recipe_reads_back_witness :
  let steel :=
    JObj [("material_name", JStr "Steel"); ("quantity", JNum 2);
          ("material_type", JStr "bar"); ("default_npc_price", JNum 9)] in
  fst (get_recipe "1" (snd (update_recipe "1" (sword 60 [steel]) sword_db)))
  = Response 200
      (Recipe
         (FullRecipe 1 (JStr "Sword") (JNum 1) (JNum 60)
            [Material (JStr "Steel") (JNum 2) (JStr "bar") (JNum 9)])).
Proof.
  intros steel.
  destruct (updated_recipe_reads_back "1" 1 (sword 60 [steel]) sword_db
              eq_refl eq_refl eq_refl eq_refl eq_refl) as [_ Hget].
  exact (Hget (snd (update_recipe "1" (sword 60 [steel]) sword_db))
           eq_refl eq_refl).
Defined.

(* ===================================================================== *)
(** ** When a write succeeds *)
(* ===================================================================== *)

(** X5. On a connection without an open transaction, a create whose body
    passes validation answers 201 exactly when none of its statements
    (the recipe insert, the material inserts, the finalize) is made to
    fail, and an update whose id parses and whose body passes validation
    answers 200 exactly when the recipe is stored and none of its
    statements is made to fail. *)
Theorem write_succeeds_unless_storage_fails (body : request_body)
    (s : state) :
  txn s = None -> accepted body = true ->
  (status (fst (create_recipe body s)) = 201
   <-> failing (steps_create body) s = false)
  /\ forall (id_param : string) (i : Z),
       parseInt id_param = Some i ->
       (status (fst (update_recipe id_param body s)) = 200
        <-> stored i (current s) = true
            /\ failing (steps_update body) s = false).
Proof.
  intros Hidle Hacc. split.
  - destruct (create_recipe body s) as [resp s'] eqn:E.
    apply create_recipe_outcome in E as (_ & Hc); trivial. cbn [fst].
    destruct Hc as [(Hf & Hst & _) | (Hf & -> & _)]; rewrite Hf.
    + rewrite Hst. split; discriminate.
    + split; reflexivity.
  - intros idp i Hid.
    destruct (update_recipe idp body s) as [resp s'] eqn:E.
    eapply update_recipe_outcome in E as (_ & Hc); eauto. cbn [fst].
    destruct Hc as [(Hf & Hst & _) | [(_ & Hn & Hst & _) | (Hf & Hs & -> & _)]].
    + rewrite Hst, Hf. split; [discriminate | intros [_ H]; discriminate].
    + rewrite Hst, Hn. split; [discriminate | intros [H _]; discriminate].
    + rewrite Hf, Hs. split; [now split | reflexivity].
Qed.

Lemma write_succeeds_unless_storage_fails_witness :
  status (fst (create_recipe (sword 60 [iron]) sword_db)) = 201
  /\ status (fst (update_recipe "1" (sword 60 [iron]) sword_db)) = 200.
Proof.
  destruct (write_succeeds_unless_storage_fails (sword 60 [iron]) sword_db
              eq_refl eq_refl) as [Hc Hu].
  split.
  - apply Hc. reflexivity.
  - apply (Hu "1" 1 eq_refl). split; reflexivity.
Defined.

(* ===================================================================== *)
(** ** The answers of each route *)
(* ===================================================================== *)

Lemma update_recipe_accepted_status (id_param : string) (i : Z)
    (body : request_body) (s : state) :
  parseInt id_param = Some i -> accepted body = true ->
  status (fst (update_recipe id_param body s)) = 500
  \/ status (fst (update_recipe id_param body s)) = 404
  \/ status (fst (update_recipe id_param body s)) = 200.
Proof.
  intros Hid Hacc. apply accepted_inv in Hacc as [Hmiss Hsome].
  unfold update_recipe. fold (missing_field body). rewrite Hid, Hmiss, Hsome.
  unfold bind, ret. repeat case_scrutinee; cbn [fst status]; tauto.
Qed.

(** X6. The status codes of each route, whatever the state of the
    connection and the injected failures: the list answers 200 or 500;
    the recipe read 200, 400, 404 or 500; the price by name 200, 404 or
    500; the create 201, 400 or 500; the update and the delete 200, 400,
    404 or 500. *)
Theorem status_codes (r : request) (s : state) :
  match r with
  | ListRecipes => In (status (fst (handle r s))) [200; 500]
  | GetRecipe _ => In (status (fst (handle r s))) [200; 400; 404; 500]
  | GetPriceByName _ => In (status (fst (handle r s))) [200; 404; 500]
  | CreateRecipe _ => In (status (fst (handle r s))) [201; 400; 500]
  | UpdateRecipe _ _ => In (status (fst (handle r s))) [200; 400; 404; 500]
  | DeleteRecipe _ => In (status (fst (handle r s))) [200; 400; 404; 500]
  end.
Proof.
  destruct r as [| idp | n | body | idp body | idp]; cbn [handle].
  - rewrite (proj1 (list_recipes_spec s)).
    destruct (fails _); simpl; tauto.
  - unfold get_recipe. destruct (parseInt idp) as [i |]; [| simpl; tauto].
    rewrite (proj1 (get_recipe_by_id_spec i s)).
    destruct (fails _); [simpl; tauto |].
    destruct (find _ _); [| simpl; tauto].
    destruct (fails _); simpl; tauto.
  - unfold get_price_by_name, bind, ret.
    repeat case_scrutinee; simpl; tauto.
  - destruct (accepted_or_not body) as [Hacc | Hacc].
    + destruct (create_recipe_accepted_status body s Hacc) as [-> | ->];
        simpl; tauto.
    + destruct (create_recipe_rejected body s Hacc) as [_ [-> | ->]];
        simpl; tauto.
  - destruct (parseInt idp) as [i |] eqn:Hid.
    + destruct (accepted_or_not body) as [Hacc | Hacc].
      * destruct (update_recipe_accepted_status idp i body s Hid Hacc)
          as [-> | [-> | ->]]; simpl; tauto.
      * destruct (update_recipe_rejected idp body s Hacc) as [_ [-> | ->]];
          simpl; tauto.
    + unfold update_recipe. rewrite Hid. simpl. tauto.
  - destruct (parseInt idp) as [i |] eqn:Hid.
    + destruct (delete_recipe_outcome idp i s Hid)
        as (_ & [(-> & _) | [(-> & _) | (-> & _)]]); simpl; tauto.
    + unfold delete_recipe. rewrite Hid. simpl. tauto.
Qed.

(* ===================================================================== *)
(** ** Validation of an update *)
(* ===================================================================== *)

Lemma validation_error_iff (body : request_body) :
  validation_error body
  <-> missing_field body = true
      \/ some_invalid (elements (lookup "materials" body)) = Normal true.
Proof.
  unfold validation_error. split.
  - intros [H | [H | [H | (before & mat & after & Hl & H)]]];
      try (left; apply missing_field_iff; tauto).
    right. rewrite Hl. cbn [elements].
    apply some_invalid_true. now exists before, mat, after.
  - intros [H | H].
    + apply missing_field_iff in H. tauto.
    + right. right. right.
      apply some_invalid_true in H as (before & mat & after & Hl & H).
      exists before, mat, after. split; trivial.
      destruct (lookup "materials" body) as [[| | | | items |] |];
        simpl in Hl; try (now destruct before).
      now subst.
Qed.

(** X7. An update is answered 400 exactly when [parseInt] finds no number
    in the path id or the body fails the validation of the create (a
    missing or falsy [name] or [quantity_produced], [materials] not an
    array, an incomplete entry that is not [null] after complete ones);
    the id is tested first, so an unparsable id gives the message of the
    id whatever the body.  An update answered 400 has issued no statement:
    the connection, its log included, is what it was. *)
Theorem update_rejects_bad_id_or_body (id_param : string)
    (body : request_body) (s : state) :
  (status (fst (update_recipe id_param body s)) = 400
   <-> parseInt id_param = None \/ validation_error body)
  /\ (status (fst (update_recipe id_param body s)) = 400 ->
      snd (update_recipe id_param body s) = s)
  /\ (parseInt id_param = None ->
      fst (update_recipe id_param body s) = invalid_id).
Proof.
  rewrite validation_error_iff.
  destruct (parseInt id_param) as [i |] eqn:Hid.
  - destruct (accepted_or_not body) as [Hacc | Hacc].
    + pose proof (accepted_inv body Hacc) as [Hmiss Hsome].
      destruct (update_recipe_accepted_status id_param i body s Hid Hacc)
        as [H | [H | H]]; rewrite H;
        (split; [| split]; try discriminate);
        (split; [discriminate |]);
        intros [Hn | [Hm | Hs]]; congruence.
    + destruct (update_recipe_rejected id_param body s Hacc) as [Hs Hst].
      split; [| split]; trivial; try discriminate.
      unfold accepted in Hacc. revert Hst.
      unfold update_recipe. fold (missing_field body). rewrite Hid.
      destruct (missing_field body); [intros _; split; auto |].
      destruct (some_invalid (elements (lookup "materials" body)))
        as [[|] |]; cbn [fst status uncaught ret];
        try discriminate Hacc.
      * intros _. split; auto.
      * intros _. split; [discriminate |].
        intros [Hn | [Hm | Hsm]]; discriminate.
  - unfold update_recipe. rewrite Hid. cbn [ret fst snd].
    split; [split; auto | split; trivial].
Qed.

(* ===================================================================== *)
(** ** A null entry in the materials *)
(* ===================================================================== *)

Lemma some_invalid_throws (before after : list json) :
  Forall entry_complete before ->
  some_invalid (before ++ JNull :: after) = Throw.
Proof.
  induction 1 as [| mat before Hmat _ IH]; simpl; trivial.
  apply material_invalid_false in Hmat. now rewrite Hmat.
Qed.

(** X8. When [name] and [quantity_produced] are truthy and the materials
    array has a [null] entry with only complete entries before it, reading
    a member of that entry throws: the create, and the update for any id
    that parses, answer 500 with the message of the error middleware and
    issue no statement, so the connection is what it was. *)
Theorem null_material_entry_throws (body : request_body)
    (before after : list json) (s : state) :
  truthy (lookup "name" body) = true ->
  truthy (lookup "quantity_produced" body) = true ->
  lookup "materials" body = Some (JArr (before ++ JNull :: after)%list) ->
  Forall entry_complete before ->
  create_recipe body s = (uncaught, s)
  /\ forall (id_param : string) (i : Z),
       parseInt id_param = Some i ->
       update_recipe id_param body s = (uncaught, s).
Proof.
  intros Hn Hq Hm Hbefore.
  assert (Hmiss : missing_field body = false).
  { unfold missing_field, falsy. now rewrite Hn, Hq, Hm. }
  pose proof (some_invalid_throws before after Hbefore) as Hsome.
  split.
  - unfold create_recipe. fold (missing_field body).
    now rewrite Hmiss, Hm; cbn [elements]; rewrite Hsome.
  - intros idp i Hid. unfold update_recipe. fold (missing_field body).
    now rewrite Hid, Hmiss, Hm; cbn [elements]; rewrite Hsome.
Qed.

Lemma null_material_entry_throws_witness :
  create_recipe (sword 50 [iron; JNull; JNum 3]) sword_db = (uncaught, sword_db)
  /\ update_recipe "1" (sword 50 [iron; JNull; JNum 3]) sword_db
     = (uncaught, sword_db).
Proof.
  assert (Hiron : Forall entry_complete [iron]).
  { constructor; [| constructor]. apply material_invalid_false. reflexivity. }
  destruct (null_material_entry_throws (sword 50 [iron; JNull; JNum 3])
              [iron] [JNum 3] sword_db eq_refl eq_refl eq_refl Hiron)
    as [Hc Hu].
  split; [exact Hc | exact (Hu "1" 1 eq_refl)].
Defined.

(* ===================================================================== *)
(** ** Delete *)
(* ===================================================================== *)

(** X9. A delete changes the tables only when it answers 200.  For an id
    that parses to a number no stored recipe has, it answers 404 unless
    its statement is made to fail; and after a delete that answered 200, a
    second delete of the same id never answers 200 (404, or 500 when its
    statement is made to fail) and leaves the tables as the first left
    them. *)
Theorem delete_then_delete (id_param : string) (i : Z) (s : state) :
  parseInt id_param = Some i ->
  (status (fst (delete_recipe id_param s)) <> 200 ->
   current (snd (delete_recipe id_param s)) = current s)
  /\ (stored i (current s) = false -> fails (hd None (faults s)) = false ->
      fst (delete_recipe id_param s)
      = Response 404 (Error "Item não encontrado para deletar."))
  /\ (status (fst (delete_recipe id_param s)) = 200 ->
      forall fs : list (option fault),
        let s' := snd (delete_recipe id_param s) in
        status (fst (delete_recipe id_param (inject fs s'))) <> 200
        /\ (fails (hd None fs) = false ->
            status (fst (delete_recipe id_param (inject fs s'))) = 404)
        /\ current (snd (delete_recipe id_param (inject fs s')))
           = current s').
Proof.
  intros Hid.
  destruct (delete_recipe_outcome id_param i s Hid) as (_ & Hc).
  split; [| split].
  - destruct Hc as [(_ & _ & Hc) | [(_ & _ & Hc) | (H & _)]]; trivial.
    intros Hne. congruence.
  - intros Hns Hok.
    unfold delete_recipe, bind, delete_recipe_row, statement, next_fault, ret.
    rewrite Hid. cbn [issue faults current txn log fst snd].
    destruct (hd None (faults s)); [discriminate |].
    unfold stored in Hns. apply changes_zero in Hns.
    cbn [fst snd].
    destruct (filter (fun r => id r =? i) (recipes (current s)));
      [reflexivity | discriminate].
  - intros H200 fs s'.
    assert (Hgone : stored i (current s') = false).
    { subst s'.
      destruct Hc as [(H & _) | [(H & _) | (_ & _ & _ & ->)]];
        try (rewrite H in H200; discriminate).
      apply not_stored_after_delete. }
    destruct (delete_recipe_outcome id_param i (inject fs s') Hid)
      as (_ & Hc2).
    cbn [inject faults current] in Hc2.
    destruct Hc2 as [(H & Hf & Hc2) | [(H & _ & Hc2) | (_ & _ & Hs & _)]];
      try congruence.
    + rewrite H. repeat split; trivial; [discriminate | congruence].
    + rewrite H. repeat split; trivial. discriminate.
Qed.

Lemma delete_then_delete_witness :
  status (fst (delete_recipe "1" sword_db)) = 200
  /\ status (fst (delete_recipe "1" (snd (delete_recipe "1" sword_db)))) = 404
  /\ fst (delete_recipe "7" sword_db)
     = Response 404 (Error "Item não encontrado para deletar.").
Proof.
  destruct (delete_then_delete "1" 1 sword_db eq_refl) as (_ & _ & Htwice).
  destruct (delete_then_delete "7" 7 sword_db eq_refl) as (_ & H404 & _).
  destruct (Htwice eq_refl []) as (_ & Hsecond & _).
  split; [reflexivity |].
  split; [exact (Hsecond eq_refl) | exact (H404 eq_refl eq_refl)].
Defined.

(* ===================================================================== *)
(** ** The price by name *)
(* ===================================================================== *)

Lemma get_price_by_name_answer (n : string) (s : state) :
  fst (get_price_by_name n s)
  = (if fails (hd None (faults s))
     then Response 500 (Error "Erro ao buscar item.")
     else
       match find (named n) (recipes (current s)) with
       | Some row => Response 200 (Price (column (npc_sell_price row)))
       | None => Response 404 (Message "Item não encontrado.")
       end).
Proof.
  destruct s as [t tx fs l].
  unfold get_price_by_name, bind, select_price, statement, next_fault, issue,
    set_tables, ret.
  cbn [faults current txn log fst snd].
  destruct fs as [| [msg |] fs]; cbn [hd tl fails fst snd]; trivial;
    fold (named n); now destruct (find (named n) (recipes t)).
Qed.

Lemma find_app_last {A : Type} (p : A -> bool) (l : list A) (a : A) :
  find p (l ++ [a])
  = match find p l with
    | Some x => Some x
    | None => if p a then Some a else None
    end.
Proof.
  induction l as [| x l IH]; simpl; trivial. now destruct (p x).
Qed.

(** X10. The price by name answers for the first stored recipe with that
    name.  After a create with the text name [n] that is carried out, the
    price by name of [n], unless its query is made to fail, answers 200
    with the price of the request (0 when the request had none) if no
    recipe was named [n] before, and otherwise still with the price of
    the oldest recipe named [n]; a name that no recipe has gives 404 with
    a [message] member. *)
Theorem price_by_name_after_create (n : string) (body : request_body)
    (s s2 : state) :
  accepted body = true -> txn s = None ->
  lookup "name" body = Some (JStr n) ->
  failing (steps_create body) s = false ->
  current s2 = current (snd (create_recipe body s)) ->
  fails (hd None (faults s2)) = false ->
  fst (get_price_by_name n s2)
  = match find (named n) (recipes (current s)) with
    | Some older => Response 200 (Price (column (npc_sell_price older)))
    | None =>
        Response 200
          (Price (column (bind_param (or_else (lookup "npc_sell_price" body)
                                        (Some (JNum 0))))))
    end.
Proof.
  intros Hacc Hidle Hname Hok Hs2 Hq.
  pose proof (accepted_fields body Hacc) as (Hn & _).
  destruct (create_recipe body s) as [resp s'] eqn:E.
  apply create_recipe_outcome in E as (_ & Hc); trivial.
  destruct Hc as [(Hf & _) | (_ & _ & Hc)]; [congruence |].
  cbn [snd] in Hs2.
  rewrite get_price_by_name_answer, Hq, Hs2, Hc. cbn [recipes].
  rewrite find_app_last.
  destruct (find (named n) (recipes (current s))); trivial.
  unfold named at 1. cbn [recipe_row_of name npc_sell_price].
  rewrite Hname. cbn [bind_param sqlval_eqb]. now rewrite String.eqb_refl.
Qed.

(** A second Sword is created at 60: the price by name stays 50, the
    price the first Sword was created with. *)
Lemma price_by_name_after_create_witness :
  fst (get_price_by_name "Sword" (snd (create_recipe (sword 60 []) sword_db)))
  = Response 200 (Price (JNum 50))
  /\ fst (get_price_by_name "Sword" sword_db) = Response 200 (Price (JNum 50)).
Proof.
  split.
  - exact (price_by_name_after_create "Sword" (sword 60 []) sword_db
             (snd (create_recipe (sword 60 []) sword_db))
             eq_refl eq_refl eq_refl eq_refl eq_refl eq_refl).
  - exact (price_by_name_after_create "Sword" (sword 50 [iron]) empty_db
             sword_db eq_refl eq_refl eq_refl eq_refl eq_refl eq_refl).
Defined.

(* ===================================================================== *)
(** ** The list after a create *)
(* ===================================================================== *)

(** X11. After a create that is carried out, the list, unless its query
    is made to fail, answers 200 with the entries it had before and one
    more, the entry of the new recipe with the id handed out, its name and
    its price (0 when the request had none). *)
Theorem list_after_create (body : request_body) (s s2 : state) :
  accepted body = true -> txn s = None ->
  failing (steps_create body) s = false ->
  current s2 = current (snd (create_recipe body s)) ->
  fails (hd None (faults s2)) = false ->
  exists rows : list item,
    fst (list_recipes s2) = Response 200 (Items rows)
    /\ Permutation rows
         (item_of_recipe (recipe_row_of (next_id (recipes (current s))) body)
            :: map item_of_recipe (order_by_name (recipes (current s))))
    /\ (fails (hd None (faults s)) = false ->
        fst (list_recipes s)
        = Response 200
            (Items (map item_of_recipe
                      (order_by_name (recipes (current s)))))).
Proof.
  intros Hacc Hidle Hok Hs2 Hq.
  destruct (create_recipe body s) as [resp s'] eqn:E.
  apply create_recipe_outcome in E as (_ & Hc); trivial.
  destruct Hc as [(Hf & _) | (_ & _ & Hc)]; [congruence |].
  cbn [snd] in Hs2.
  eexists. split; [| split].
  - rewrite (proj1 (list_recipes_spec s2)), Hq. reflexivity.
  - rewrite Hs2, Hc. cbn [recipes].
    change (fun r => Item (id r) (column (name r)) (column (npc_sell_price r)))
      with item_of_recipe.
    rewrite <- map_cons. apply Permutation_map.
    rewrite order_by_name_perm.
    rewrite <- Permutation_cons_append.
    constructor. symmetry. apply order_by_name_perm.
  - intros Hq0. rewrite (proj1 (list_recipes_spec s)), Hq0. reflexivity.
Qed.

Lemma list_after_create_witness :
  exists rows : list item,
    fst (list_recipes (snd (create_recipe (sword 60 []) sword_db)))
    = Response 200 (Items rows)
    /\ Permutation rows
         [Item 2 (JStr "Sword") (JNum 60); Item 1 (JStr "Sword") (JNum 50)].
Proof.
  destruct (list_after_create (sword 60 []) sword_db
              (snd (create_recipe (sword 60 []) sword_db))
              eq_refl eq_refl eq_refl eq_refl eq_refl)
    as (rows & Hrows & Hperm & _).
  exists rows. split; [exact Hrows | exact Hperm].
Defined.

(* ===================================================================== *)
(** ** Reads *)
(* ===================================================================== *)

(** X12. The three reads (the list, the recipe, the price by name) never
    change the tables and never open or close a transaction, whatever they
    answer and whatever failure is injected. *)
Theorem reads_change_nothing (s : state) (id_param itemName : string) :
  (current (snd (list_recipes s)) = current s
   /\ txn (snd (list_recipes s)) = txn s)
  /\ (current (snd (get_recipe id_param s)) = current s
      /\ txn (snd (get_recipe id_param s)) = txn s)
  /\ (current (snd (get_price_by_name itemName s)) = current s
      /\ txn (snd (get_price_by_name itemName s)) = txn s).
Proof.
  split; [| split].
  - now destruct (list_recipes_spec s) as (_ & -> & ->).
  - unfold get_recipe. destruct (parseInt id_param) as [i |]; [| now split].
    now destruct (get_recipe_by_id_spec i s) as (_ & -> & ->).
  - apply get_price_by_name_spec.
Qed.

(* ===================================================================== *)
(** ** What follows the number in the id *)
(* ===================================================================== *)

Lemma read_digits_stop (tail : string) (acc : Z) (count : nat) :
  no_leading_digit tail = true -> read_digits acc count tail = (acc, count).
Proof.
  destruct tail as [| c tail]; cbn [no_leading_digit read_digits]; trivial.
  intros H. apply negb_true_iff in H. now rewrite H.
Qed.

Lemma read_digits_app_pos (tail : string) (d : Decimal.uint) :
  no_leading_digit tail = true ->
  forall (acc : positive) (count : nat),
    fst (read_digits (Z.pos acc) count (NilEmpty.string_of_uint d ++ tail))
    = Z.pos (Pos.of_uint_acc d acc).
Proof.
  intros Htail.
  induction d; intros acc count;
    cbn [NilEmpty.string_of_uint String.append read_digits Pos.of_uint_acc];
    [ now rewrite read_digits_stop | .. ];
    (replace (is_digit _) with true by reflexivity);
    match goal with
    | |- fst (read_digits ?a _ _) = Z.pos (Pos.of_uint_acc _ ?p) =>
        replace a with (Z.pos p)
          by (match goal with
              | |- context [digit_value ?c] =>
                  let v := eval vm_compute in (digit_value c) in
                  change (digit_value c) with v
              end; lia)
    end; apply IHd.
Qed.

Lemma read_digits_app (tail : string) (d : Decimal.uint) :
  no_leading_digit tail = true ->
  forall count : nat,
    fst (read_digits 0 count (NilEmpty.string_of_uint d ++ tail))
    = Z.of_N (Pos.of_uint d).
Proof.
  intros Htail.
  induction d; intros count;
    cbn [NilEmpty.string_of_uint String.append read_digits Pos.of_uint];
    [ now rewrite read_digits_stop | .. ];
    (replace (is_digit _) with true by reflexivity);
    [ apply IHd | .. ];
    match goal with
    | |- fst (read_digits ?a _ _) = Z.of_N (N.pos (Pos.of_uint_acc _ ?p)) =>
        change a with (Z.pos p)
    end; now apply read_digits_app_pos.
Qed.

Lemma parseInt_digits_then (tail : string) (d : Decimal.uint) :
  no_leading_digit tail = true -> d <> Decimal.Nil ->
  parseInt (NilEmpty.string_of_uint d ++ tail)
  = Some (Z.of_N (Pos.of_uint d))
  /\ parseInt (String "-" (NilEmpty.string_of_uint d ++ tail))
     = Some (- Z.of_N (Pos.of_uint d)).
Proof.
  intros Htail Hd.
  assert (Hs : exists c rest,
             NilEmpty.string_of_uint d = String c rest /\ is_digit c = true).
  { destruct d; try contradiction; cbn [NilEmpty.string_of_uint];
      eexists; eexists; split; reflexivity. }
  destruct Hs as (c & rest & Hs & Hc).
  pose proof (read_digits_app tail d Htail 0) as Hv.
  pose proof (read_digits_count (rest ++ tail) (10 * 0 + digit_value c) 1)
    as Hn.
  rewrite Hs in Hv |- *. cbn [String.append] in Hv |- *.
  assert (Hread : exists k, read_digits 0 0 (String c (rest ++ tail))
                            = (Z.of_N (Pos.of_uint d), S k)).
  { cbn [read_digits] in Hv |- *. rewrite Hc in Hv |- *.
    destruct (read_digits (10 * 0 + digit_value c) 1 (rest ++ tail))
      as [n [| k]].
    - cbn [snd] in Hn. lia.
    - exists k. cbn [fst] in Hv. now rewrite Hv. }
  destruct Hread as (k & Hread).
  split.
  - unfold parseInt. cbn [String.length skip_spaces].
    rewrite (skip_one_space_digit c (rest ++ tail) Hc).
    assert (Hsign : match String c (rest ++ tail) with
                    | String "-" r => (-1, r)
                    | String "+" r => (1, r)
                    | _ => (1, String c (rest ++ tail))
                    end = (1, String c (rest ++ tail))).
    { pose proof (is_digit_cases c Hc) as Hin. simpl in Hin.
      repeat (destruct Hin as [<- | Hin]); try contradiction; reflexivity. }
    rewrite Hsign, Hread. f_equal; lia.
  - unfold parseInt. cbn [String.length skip_spaces].
    assert (Hskip : skip_one_space (String "-" (String c (rest ++ tail)))
                    = None).
    { destruct (rest ++ tail); reflexivity. }
    rewrite Hskip, Hread. f_equal; lia.
Qed.

(** X13. [parseInt] reads the number and ignores what follows it: the
    decimal text of an integer that a JavaScript number holds exactly (at
    most 2^53 - 1 in absolute value), followed by any text that does not
    start with a digit (nothing, letters, a dot, a space), is parsed to
    that integer.  So a path id such as [12abc] or [12.5] reaches the store
    as 12. *)
Theorem parseInt_ignores_what_follows (z : Z) (tail : string) :
  isSafeInteger z = true ->
  no_leading_digit tail = true ->
  parseInt (string_of_Z z ++ tail) = Some z.
Proof.
  intros _ Htail. unfold string_of_Z. destruct z as [| p | p].
  - change (NilZero.string_of_int (Z.to_int 0) ++ tail)%string
      with (String "0" tail).
    unfold parseInt. cbn [String.length skip_spaces].
    rewrite (skip_one_space_digit "0" tail eq_refl).
    cbn [read_digits]. replace (is_digit "0") with true by reflexivity.
    rewrite read_digits_stop by trivial. reflexivity.
  - cbn [Z.to_int NilZero.string_of_int].
    pose proof (Unsigned.to_uint_nonnil p) as Hnil.
    destruct (parseInt_digits_then tail (Pos.to_uint p) Htail Hnil)
      as [Hpos _].
    rewrite Unsigned.of_to in Hpos.
    replace (NilZero.string_of_uint (Pos.to_uint p))
      with (NilEmpty.string_of_uint (Pos.to_uint p))
      by (destruct (Pos.to_uint p); trivial; contradiction).
    exact Hpos.
  - cbn [Z.to_int NilZero.string_of_int].
    pose proof (Unsigned.to_uint_nonnil p) as Hnil.
    destruct (parseInt_digits_then tail (Pos.to_uint p) Htail Hnil)
      as [_ Hneg].
    rewrite Unsigned.of_to in Hneg.
    replace (NilZero.string_of_uint (Pos.to_uint p))
      with (NilEmpty.string_of_uint (Pos.to_uint p))
      by (destruct (Pos.to_uint p); trivial; contradiction).
    exact Hneg.
Qed.

Lemma parseInt_ignores_what_follows_witness :
  parseInt "12abc" = Some 12 /\ parseInt "-7.5" = Some (-7).
Proof.
  split.
  - exact (parseInt_ignores_what_follows 12 "abc" eq_refl eq_refl).
  - exact (parseInt_ignores_what_follows (-7) ".5" eq_refl eq_refl).
Defined.

(* ===================================================================== *)
(** ** The transaction of a write *)
(* ===================================================================== *)

Lemma begin_log (s : state) :
  log (snd (begin_transaction s)) = (log s ++ ["BEGIN TRANSACTION"])%list.
Proof. unfold begin_transaction, issue. simpl. now destruct (txn s). Qed.

Lemma rollback_log (s : state) :
  log (snd (rollback s)) = (log s ++ ["ROLLBACK"])%list.
Proof. unfold rollback, issue. simpl. now destruct (txn s). Qed.

Lemma commit_log (s : state) :
  log (snd (commit s)) = (log s ++ ["COMMIT"])%list.
Proof. reflexivity. Qed.

Lemma run_materials_log (rid : Z) (mats : list json) :
  forall (s : state) (e : bool) (s' : state),
    run_materials rid mats s = (e, s') ->
    exists inserts : list string,
      log s' = (log s ++ inserts)%list
      /\ forallb data_statement inserts = true
      /\ List.length inserts = List.length mats.
Proof.
  induction mats as [| mat rest IH]; intros s e s'.
  - simpl. intros [= <- <-]. exists []. now rewrite app_nil_r.
  - cbn [run_materials]. unfold bind at 1.
    destruct (insert_material rid _ _ _ _ s) as [r s1] eqn:E1.
    unfold bind at 1.
    destruct (run_materials rid rest s1) as [errs s2] eqn:E2.
    unfold ret. intros [= <- <-].
    apply IH in E2 as (inserts & Hl & Hd & Hn).
    unfold insert_material in E1.
    apply write_statement_spec in E1 as (_ & Hl1 & _).
    eexists (_ :: inserts). split; [| split].
    + rewrite Hl, Hl1, <- app_assoc. reflexivity.
    + cbn [forallb]. now rewrite Hd.
    + cbn [List.length]. now rewrite Hn.
Qed.

Lemma finalize_materials_log (e : bool) (s : state) (flag : bool)
    (s' : state) :
  finalize_materials e s = (flag, s') -> log s' = log s.
Proof.
  unfold finalize_materials, bind, ret.
  destruct (finalize s) as [f s1] eqn:E.
  apply finalize_spec in E as (_ & _ & _ & Hl & _).
  now intros [= _ <-].
Qed.

Lemma create_recipe_bracket (body : request_body) (s : state)
    (resp : response) (s' : state) :
  accepted body = true -> create_recipe body s = (resp, s') ->
  bracketed (log s) (log s')
    (if status resp =? 201 then "COMMIT" else "ROLLBACK").
Proof.
  intros Hacc. apply accepted_inv in Hacc as [Hmiss Hsome].
  pose proof (begin_log s) as Hl0.
  destruct (begin_transaction s) as [[] s0] eqn:E0. cbn [snd] in Hl0.
  unfold bracketed.
  unfold create_recipe. fold (missing_field body). rewrite Hmiss, Hsome.
  unfold bind at 1. rewrite E0. unfold bind at 1.
  destruct (insert_recipe _ _ _ s0) as [r s1] eqn:E1.
  unfold insert_recipe in E1.
  apply write_statement_spec in E1 as (_ & Hl1 & _).
  destruct r as [recipeId | msg].
  - unfold bind at 1.
    destruct (run_materials recipeId _ s1) as [e s2] eqn:E2.
    apply run_materials_log in E2 as (inserts & Hl2 & Hd & _).
    unfold bind at 1.
    destruct (finalize_materials e s2) as [flag s3] eqn:E3.
    apply finalize_materials_log in E3.
    destruct flag; unfold bind, ret.
    + pose proof (rollback_log s3) as Hl4.
      destruct (rollback s3) as [[] s4]. cbn [snd] in Hl4.
      intros [= <- <-]. cbn [status Z.eqb Pos.eqb].
      eexists (_ :: inserts). split.
      * rewrite Hl4, E3, Hl2, Hl1, Hl0, <- !app_assoc. reflexivity.
      * cbn [forallb]. now rewrite Hd.
    + pose proof (commit_log s3) as Hl4.
      destruct (commit s3) as [[] s4]. cbn [snd] in Hl4.
      intros [= <- <-]. cbn [status Z.eqb Pos.eqb].
      eexists (_ :: inserts). split.
      * rewrite Hl4, E3, Hl2, Hl1, Hl0, <- !app_assoc. reflexivity.
      * cbn [forallb]. now rewrite Hd.
  - unfold bind, ret.
    pose proof (rollback_log s1) as Hl2.
    destruct (rollback s1) as [[] s2]. cbn [snd] in Hl2.
    intros [= <- <-]. cbn [status Z.eqb Pos.eqb].
    eexists [_]. split.
    + rewrite Hl2, Hl1, Hl0, <- !app_assoc. reflexivity.
    + reflexivity.
Qed.

Lemma update_recipe_bracket (id_param : string) (i : Z)
    (body : request_body) (s : state) (resp : response) (s' : state) :
  parseInt id_param = Some i -> accepted body = true ->
  update_recipe id_param body s = (resp, s') ->
  bracketed (log s) (log s')
    (if status resp =? 200 then "COMMIT" else "ROLLBACK").
Proof.
  intros Hid Hacc. apply accepted_inv in Hacc as [Hmiss Hsome].
  pose proof (begin_log s) as Hl0.
  destruct (begin_transaction s) as [[] s0] eqn:E0. cbn [snd] in Hl0.
  unfold bracketed.
  unfold update_recipe. fold (missing_field body).
  rewrite Hid, Hmiss, Hsome.
  unfold bind at 1. rewrite E0. unfold bind at 1.
  destruct (update_recipe_row _ _ _ i s0) as [r s1] eqn:E1.
  unfold update_recipe_row in E1.
  apply write_statement_spec in E1 as (_ & Hl1 & _).
  destruct r as [[| changes] | msg].
  - unfold bind, ret.
    pose proof (rollback_log s1) as Hl2.
    destruct (rollback s1) as [[] s2]. cbn [snd] in Hl2.
    intros [= <- <-]. cbn [status Z.eqb Pos.eqb].
    eexists [_]. split.
    + rewrite Hl2, Hl1, Hl0, <- !app_assoc. reflexivity.
    + reflexivity.
  - unfold bind at 1.
    destruct (delete_materials i s1) as [d s2] eqn:E2.
    unfold delete_materials in E2.
    apply write_statement_spec in E2 as (_ & Hl2 & _).
    destruct d as [[] | msg].
    + unfold bind at 1.
      destruct (run_materials i _ s2) as [e s3] eqn:E3.
      apply run_materials_log in E3 as (inserts & Hl3 & Hd & _).
      unfold bind at 1.
      destruct (finalize_materials e s3) as [flag s4] eqn:E4.
      apply finalize_materials_log in E4.
      destruct flag; unfold bind, ret.
      * pose proof (rollback_log s4) as Hl5.
        destruct (rollback s4) as [[] s5]. cbn [snd] in Hl5.
        intros [= <- <-]. cbn [status Z.eqb Pos.eqb].
        eexists (_ :: _ :: inserts). split.
        -- rewrite Hl5, E4, Hl3, Hl2, Hl1, Hl0, <- !app_assoc. reflexivity.
        -- cbn [forallb]. now rewrite Hd.
      * pose proof (commit_log s4) as Hl5.
        destruct (commit s4) as [[] s5]. cbn [snd] in Hl5.
        intros [= <- <-]. cbn [status Z.eqb Pos.eqb].
        eexists (_ :: _ :: inserts). split.
        -- rewrite Hl5, E4, Hl3, Hl2, Hl1, Hl0, <- !app_assoc. reflexivity.
        -- cbn [forallb]. now rewrite Hd.
    + unfold bind, ret.
      pose proof (rollback_log s2) as Hl3.
      destruct (rollback s2) as [[] s3]. cbn [snd] in Hl3.
      intros [= <- <-]. cbn [status Z.eqb Pos.eqb].
      eexists [_; _]. split.
      * rewrite Hl3, Hl2, Hl1, Hl0, <- !app_assoc. reflexivity.
      * reflexivity.
  - unfold bind, ret.
    pose proof (rollback_log s1) as Hl2.
    destruct (rollback s1) as [[] s2]. cbn [snd] in Hl2.
    intros [= <- <-]. cbn [status Z.eqb Pos.eqb].
    eexists [_]. split.
    + rewrite Hl2, Hl1, Hl0, <- !app_assoc. reflexivity.
    + reflexivity.
Qed.

(** X14. A write whose body passes validation opens one transaction and
    closes it before it answers: the statements it issues are BEGIN
    TRANSACTION first, then statements on the data only, then COMMIT or
    ROLLBACK last.  The create closes with COMMIT exactly when it answers
    201, the update (for an id that parses) exactly when it answers 200;
    every other answer, the 404 of the update included, closes with
    ROLLBACK. *)
Theorem write_closes_its_transaction (body : request_body) (s : state) :
  accepted body = true ->
  bracketed (log s) (log (snd (create_recipe body s)))
    (if status (fst (create_recipe body s)) =? 201
     then "COMMIT" else "ROLLBACK")
  /\ forall (id_param : string) (i : Z),
       parseInt id_param = Some i ->
       bracketed (log s) (log (snd (update_recipe id_param body s)))
         (if status (fst (update_recipe id_param body s)) =? 200
          then "COMMIT" else "ROLLBACK").
Proof.
  intros Hacc. split.
  - destruct (create_recipe body s) as [resp s'] eqn:E.
    now apply (create_recipe_bracket body s).
  - intros idp i Hid.
    destruct (update_recipe idp body s) as [resp s'] eqn:E.
    now apply (update_recipe_bracket idp i body s).
Qed.

(** The update of an unknown id on the Sword database: BEGIN, the UPDATE,
    ROLLBACK; the create: BEGIN, two inserts, COMMIT. *)
Lemma write_closes_its_transaction_witness :
  bracketed [] (log (snd (create_recipe (sword 50 [iron]) empty_db))) "COMMIT"
  /\ bracketed (log sword_db)
       (log (snd (update_recipe "7" (sword 60 [iron]) sword_db))) "ROLLBACK".
Proof.
  destruct (write_closes_its_transaction (sword 50 [iron]) empty_db eq_refl)
    as [Hc _].
  destruct (write_closes_its_transaction (sword 60 [iron]) sword_db eq_refl)
    as [_ Hu].
  split; [exact Hc | exact (Hu "7" 7 eq_refl)].
Defined.

(* ===================================================================== *)
(** ** The list after a delete *)
(* ===================================================================== *)





